(** * CoinPredict: the ledger, the market engine, bet admission, the rate
    limiter, the daily reward and the weekly leaderboard

    A shallow embedding of [bot.py] (the Telegram bot) and [server.py] (the
    Flask API of the Mini App).  Both programs work on the same SQLite file;
    the four tables are modelled as one record [db].

    - An [INTEGER] column is a [Z]: the 64-bit range of SQLite is modelled
      where a request chooses the value (an id bound to a statement,
      [Server.bind]), and not for balances, which no request brings near
      it.  A [TEXT] column is a [string].  A [REAL] column is a binary64
      [float], compared with the kernel's primitive float operations, as
      Python compares its floats, and stored as it is given (a NaN, which
      SQLite would store as NULL, is not a price the oracle's JSON carries).
    - The [users] and [weekly_coins_snapshot] tables have the user's id as
      primary key: finite maps keyed by [Z].  [markets] and [bets] have an
      [AUTOINCREMENT] key: lists of rows that carry their [id], in insertion
      order.
    - An instant ([datetime.now(timezone.utc)], or its [timestamp()]) is a
      rational number of seconds; a calendar date ([date.isoformat()]) is the
      string it is stored as.
    - What the outside world answers is an argument of the operation that
      asks: the price the oracle returns ([None] when CoinGecko fails), the
      clock's reading, whether a notification could be delivered.
    - A [with conn] block commits when it is left by [return] and rolls
      back when an exception leaves it.  The bot's operations hold
      [_db_lock] and write first (or read only tables no one else writes),
      and [POST /api/user] writes first: each is one unit of work.
      [POST /api/bet] takes no lock and reads three times before its
      transaction opens: it is modelled both as one unit ([EvApiBet]) and
      statement by statement ([EvApiBetBegin], [EvApiBetNext]), with any
      other operation in between.  A statement that finds the file locked
      waits; sqlite3's timeout is not modelled.
    - A JSON body is an object whose fields are any JSON values; the
      [username] of [POST /api/user] is a text.  A Telegram user id is the
      integer Telegram gives (at most 52 bits).
    - A reply is part of what an operation returns; sending it is not
      modelled, so no send fails inside a transaction.
    - For [_current_week_start] a date is its proleptic Gregorian ordinal;
      the [user_id] of a query string is a text, compared with the INTEGER
      column as SQLite's affinity rule reads it. *)

From Stdlib Require Import Floats.PrimFloat.
From Stdlib Require Floats.SpecFloat Floats.FloatOps Floats.FloatAxioms.
From Stdlib Require Import ZArith QArith Lqa Lia String Ascii List.
From stdpp Require Import gmap strings list fin_maps sorting.

Open Scope Z_scope.

(** A lemma of a section depends on the section's variables its statement
    names, and on no other. *)
#[local] Set Default Proof Using "Type".

Abbreviation float := PrimFloat.float.

(** ** Configuration ([bot.py], CONFIG) *)

Module Config.

Definition DAILY_REWARD_MESSAGE_ID : option Z := None.
Definition DAILY_REWARD_AMOUNT : Z := 100.
Definition MARKET_INTERVAL_MINS : Z := 5.
Definition WIN_MULTIPLIER : Z := 2.
Definition MAX_BET_AMOUNT : Z := 10000.
Definition MIN_BET_AMOUNT : Z := 1.
Definition BET_RATE_LIMIT_COUNT : nat := 3.
Definition BET_RATE_LIMIT_WINDOW : Q := 60.

End Config.

(** ** The schema ([init_db]) *)

Inductive direction := UP | DOWN.
Inductive market_status := OPEN | CLOSED.

Record user_row := mk_user {
  username : string;
  coins : Z;
  last_daily : option string
}.

Record market_row := mk_market {
  market_id_of : Z;
  open_price : float;
  close_price : option float;
  open_time : Q;
  close_time : option Q;
  status : market_status
}.

Record bet_row := mk_bet {
  bet_id : Z;
  bet_user : Z;
  bet_market : Z;
  bet_direction : direction;
  amount : Z;
  resolved : bool
}.

Record snapshot_row := mk_snapshot {
  coins_at_week_start : Z;
  week_start_of : string
}.

Record db := mk_db {
  users : gmap Z user_row;
  markets : list market_row;
  bets : list bet_row;
  weekly_coins_snapshot : gmap Z snapshot_row
}.

(** The tables [init_db] creates in a fresh file. *)
Definition empty_db : db := mk_db ∅ [] [] ∅.

Definition direction_eqb (a b : direction) : bool :=
  match a, b with
  | UP, UP | DOWN, DOWN => true
  | _, _ => false
  end.

Definition is_open (m : market_row) : bool :=
  match status m with OPEN => true | CLOSED => false end.

(** The next key of an [AUTOINCREMENT] table: one more than the largest key
    in use (rows are never deleted), 1 in an empty table. *)
Definition next_id (ids : list Z) : Z := 1 + fold_right Z.max 0 ids.

Definition set_users (us : gmap Z user_row) (d : db) : db :=
  mk_db us (markets d) (bets d) (weekly_coins_snapshot d).
Definition set_markets (ms : list market_row) (d : db) : db :=
  mk_db (users d) ms (bets d) (weekly_coins_snapshot d).
Definition set_bets (bs : list bet_row) (d : db) : db :=
  mk_db (users d) (markets d) bs (weekly_coins_snapshot d).
Definition set_snapshot (sn : gmap Z snapshot_row) (d : db) : db :=
  mk_db (users d) (markets d) (bets d) sn.

(** [UPDATE users SET coins = coins + ? WHERE telegram_id=?]: no row, no
    change. *)
Definition add_coins (x : Z) (uid : Z) (us : gmap Z user_row) : gmap Z user_row :=
  alter (λ u, mk_user (username u) (coins u + x) (last_daily u)) uid us.

(** [UPDATE users SET username=? WHERE telegram_id=?] *)
Definition set_username (name : string) (uid : Z) (us : gmap Z user_row)
  : gmap Z user_row :=
  alter (λ u, mk_user name (coins u) (last_daily u)) uid us.

(** [INSERT OR IGNORE INTO users (telegram_id, username, coins) VALUES (?,?,0)] *)
Definition insert_or_ignore_user (name : string) (uid : Z) (us : gmap Z user_row)
  : gmap Z user_row :=
  match us !! uid with
  | Some _ => us
  | None => <[uid := mk_user name 0 None]> us
  end.

(** The balance a user's row holds, if there is a row. *)
Definition balance (d : db) (uid : Z) : option Z := coins <$> users d !! uid.

(** ** The market engine ([bot.py], MARKET ENGINE) *)

Module Engine.
Import Config.

(** [SELECT * FROM markets WHERE status='OPEN' ORDER BY id DESC LIMIT 1] *)
Fixpoint latest (ms : list market_row) : option market_row :=
  match ms with
  | [] => None
  | m :: rest =>
      match latest rest with
      | Some m' => if market_id_of m <? market_id_of m' then Some m' else Some m
      | None => Some m
      end
  end.

Definition get_open_market (d : db) : option market_row :=
  latest (List.filter is_open (markets d)).

(** [price] is what [get_btc_price()] returned, [now] the clock's reading. *)
Definition open_new_market (price : option float) (now : Q) (d : db) : db :=
  match price with
  | None => d
  | Some p =>
      let close_at := (now + inject_Z (MARKET_INTERVAL_MINS * 60))%Q in
      set_markets
        (markets d ++
           [mk_market (next_id (map market_id_of (markets d))) p None now
              (Some close_at) OPEN]) d
  end.

(** [abs(close_price - open_price) < 0.01]; the literal is the double nearest
    to 0.01, as in Python. *)
#[local] Set Warnings "-inexact-float".
Definition is_tie (close_p open_p : float) : bool :=
  PrimFloat.ltb (PrimFloat.abs (PrimFloat.sub close_p open_p)) 0.01%float.

(** ["UP" if close_price > open_price else "DOWN"] *)
Definition winning_direction (close_p open_p : float) : direction :=
  if PrimFloat.ltb open_p close_p then UP else DOWN.

(** [UPDATE markets SET close_price=?, close_time=?, status='CLOSED' WHERE id=?] *)
Definition close_market (mid : Z) (close_p : float) (now : Q)
    (ms : list market_row) : list market_row :=
  map (λ m, if market_id_of m =? mid
            then mk_market (market_id_of m) (open_price m) (Some close_p)
                   (open_time m) (Some now) CLOSED
            else m) ms.

(** [SELECT user_id, amount, direction FROM bets WHERE market_id=? AND resolved=0] *)
Definition unresolved_bets (mid : Z) (bs : list bet_row) : list bet_row :=
  List.filter (λ b, (bet_market b =? mid) && negb (resolved b)) bs.

(** The tie loop: every selected bet's stake goes back to its user. *)
Definition refund_all (all_bets : list bet_row) (us : gmap Z user_row)
  : gmap Z user_row :=
  fold_left (λ us row, add_coins (amount row) (bet_user row) us) all_bets us.

(** The win/loss loop over [winners]. *)
Definition pay_winners (winners : list bet_row) (us : gmap Z user_row)
  : gmap Z user_row :=
  fold_left (λ us row, add_coins (amount row * WIN_MULTIPLIER) (bet_user row) us)
    winners us.

(** [UPDATE bets SET resolved=1 WHERE market_id=?] *)
Definition mark_resolved (mid : Z) (bs : list bet_row) : list bet_row :=
  map (λ b, if bet_market b =? mid
            then mk_bet (bet_id b) (bet_user b) (bet_market b) (bet_direction b)
                   (amount b) true
            else b) bs.

(** [resolve_market]: [close_p] is the price fetched for the close and [now]
    the time read for it; [next_p] and [now'] are the price and the time
    [open_new_market] reads when it runs. *)
Definition resolve_market (close_p : option float) (now : Q)
    (next_p : option float) (now' : Q) (d : db) : db :=
  match close_p with
  | None => d
  | Some close_price =>
      match get_open_market d with
      | None => open_new_market next_p now' d
      | Some market =>
          let mid := market_id_of market in
          let d1 := set_markets (close_market mid close_price now (markets d)) d in
          let all_bets := unresolved_bets mid (bets d1) in
          let d2 :=
            if is_tie close_price (open_price market)
            then set_users (refund_all all_bets (users d1)) d1
            else
              let direction := winning_direction close_price (open_price market) in
              let winners :=
                List.filter (λ r, direction_eqb (bet_direction r) direction) all_bets in
              set_users (pay_winners winners (users d1)) d1 in
          let d3 := set_bets (mark_resolved mid (bets d2)) d2 in
          open_new_market next_p now' d3
      end
  end.

(** [main]: open the first market on startup when none is open. *)
Definition startup (price : option float) (now : Q) (d : db) : db :=
  match get_open_market d with
  | Some _ => d
  | None => open_new_market price now d
  end.

End Engine.

(** ** The rate limiter ([bot.py], RATE LIMITER) *)

Module RateLimiter.
Import Config.

(** [[t for t in bucket if t > cutoff]] *)
Definition prune (cutoff : Q) (bucket : list Q) : list Q :=
  List.filter (λ t, negb (Qle_bool t cutoff)) bucket.

(** [_rate_buckets] is a [defaultdict(list)]: a user without a bucket has the
    empty one.  The result is the answer and the buckets afterwards. *)
Definition is_rate_limited (user_id : Z) (now : Q) (rb : gmap Z (list Q))
  : bool * gmap Z (list Q) :=
  let cutoff := (now - BET_RATE_LIMIT_WINDOW)%Q in
  let bucket := default [] (rb !! user_id) in
  let pruned := prune cutoff bucket in
  if (BET_RATE_LIMIT_COUNT <=? length pruned)%nat
  then (true, <[user_id := pruned]> rb)
  else (false, <[user_id := pruned ++ [now]]> rb).

End RateLimiter.

(** ** What a bet request is answered *)

Inductive reject :=
| RateLimited        (* "Slow down!" *)
| MissingArgs        (* the usage text; 400 "user_id, direction, amount required" *)
| BadDirection       (* 400 *)
| BadAmount          (* not a whole number; 400 *)
| BelowMinimum       (* 400 *)
| AboveMaximum       (* 400 *)
| NoMarket           (* 409 *)
| UserNotFound       (* 404, [server.py] only *)
| InsufficientFunds  (* 409 *)
| DuplicateBet.      (* 409 *)

(** [Raised]: an exception left the transaction, which is rolled back. *)
Inductive outcome :=
| Rejected (r : reject)
| Placed (dir : direction) (stake potential_payout new_balance : Z)
| Raised.

(** [str.upper()] on the letters a..z; no other character has U, P, D, O, W
    or N as its upper case. *)
Definition upper_ascii (c : ascii) : ascii :=
  let n := nat_of_ascii c in
  if ((97 <=? n) && (n <=? 122))%nat then ascii_of_nat (n - 32) else c.

Fixpoint upper (s : string) : string :=
  match s with
  | EmptyString => EmptyString
  | String c rest => String (upper_ascii c) (upper rest)
  end.

(** [direction not in ("UP", "DOWN")], on the upper-cased text. *)
Definition parse_direction (s : string) : option direction :=
  if String.eqb s "UP" then Some UP
  else if String.eqb s "DOWN" then Some DOWN
  else None.

(** [INSERT INTO bets (user_id, market_id, direction, amount) VALUES (?,?,?,?)]
    under [UNIQUE(user_id, market_id)]: [None] is the [IntegrityError].  The
    foreign keys hold where the bot inserts: the user's row and the market's
    were read in the same transaction.  The API, whose reads come before its
    transaction, has them checked ([Server.references_ok]). *)
Definition insert_bet (uid mid : Z) (dir : direction) (amt : Z)
    (bs : list bet_row) : option (list bet_row) :=
  if existsb (λ b, (bet_user b =? uid) && (bet_market b =? mid)) bs
  then None
  else Some (bs ++ [mk_bet (next_id (map bet_id bs)) uid mid dir amt false]).

(** [SELECT id FROM bets WHERE user_id=? AND market_id=? AND resolved=0] *)
Definition has_unresolved_bet (uid mid : Z) (bs : list bet_row) : bool :=
  existsb (λ b, (bet_user b =? uid) && (bet_market b =? mid) && negb (resolved b)) bs.

(** [COALESCE(s.coins_at_week_start, 0)] over the [LEFT JOIN] on
    [s.user_id = u.telegram_id AND s.week_start = ?]. *)
Definition snapshot_balance (week : string) (d : db) (uid : Z) : Z :=
  match weekly_coins_snapshot d !! uid with
  | Some s => if String.eqb (week_start_of s) week then coins_at_week_start s else 0
  | None => 0
  end.

(** [u.coins - COALESCE(s.coins_at_week_start, 0) AS weekly_gain] *)
Definition weekly_gain (week : string) (d : db) (uid : Z) (u : user_row) : Z :=
  coins u - snapshot_balance week d uid.

(** A row of the leaderboard query. *)
Record board_row := mk_board {
  board_id : Z;
  board_username : string;
  board_coins : Z;
  board_gain : Z
}.

(** [ORDER BY weekly_gain DESC, u.coins DESC] *)
Definition board_before (a b : board_row) : Prop :=
  board_gain b < board_gain a ∨
  (board_gain a = board_gain b ∧ board_coins b ≤ board_coins a).

#[local] Instance board_before_dec a b : Decision (board_before a b).
Proof. unfold board_before. apply _. Defined.

(** The leaderboard query of both programs; rows that tie on both keys come
    in the order the merge leaves them in. *)
Definition leaderboard_query (week : string) (d : db) : list board_row :=
  take 10
    (merge_sort board_before
       (map (λ '(uid, u), mk_board uid (username u) (coins u) (weekly_gain week d uid u))
          (map_to_list (users d)))).

(** ** The bot ([bot.py]) *)

(** A Telegram user as the handlers see one. *)
Record tg_user := mk_tg_user {
  tg_id : Z;
  tg_username : option string;
  first_name : string;
  is_bot : bool
}.

(** [update.message_reaction] *)
Record reaction_update := mk_reaction {
  new_reaction : list string;
  message_id : Z;
  reaction_user : option tg_user
}.

(** A value of a JSON body, as [request.json] gives it to the handler. *)
Inductive jvalue :=
| JNull                  (* [null], or the key is absent *)
| JBool (b : bool)
| JInt (z : Z)           (* a number without fraction or exponent: a Python int *)
| JFloat (f : float)     (* any other number, [Infinity] and [NaN] included *)
| JStr (s : string)
| JArr (empty : bool)    (* an array: the handlers read its truth value only *)
| JObj (empty : bool).   (* an object, likewise *)

(** The JSON body of [POST /api/bet]. *)
Record bet_request := mk_bet_request {
  req_user_id : jvalue;
  req_direction : jvalue;
  req_amount : jvalue
}.

(** Where a [POST /api/bet] stands between two of its statements.  The
    server takes no lock and its three SELECTs run before sqlite3 opens the
    transaction (at the UPDATE), so other operations can come in between. *)
Inductive api_stage :=
| AwaitUser       (* the market is read; [SELECT * FROM users] comes next *)
| AwaitExisting   (* the balance is checked; [SELECT id FROM bets] comes next *)
| AwaitWrite.     (* every check has passed; the transaction comes next *)

(** A request under way: its body, the market row it has read and where it
    stands.  Its other locals ([direction], [amount]) are functions of the
    body. *)
Record api_request := mk_api_request {
  api_body : bet_request;
  api_market : market_row;
  api_stage_of : api_stage
}.

(** The system: the ledger file, the limiter's buckets in the bot's memory,
    and the API's bet requests under way, by the thread that serves them. *)
Record state := mk_state {
  ledger : db;
  rate_buckets : gmap Z (list Q);
  api_requests : gmap Z api_request
}.

(** What a reaction event ends in. *)
Inductive reward_result :=
| Ignored          (* filtered out before the ledger is touched *)
| AlreadyClaimed   (* the silent skip *)
| Granted (new_balance : Z) (notified : bool)
| RewardRaised.

Module Bot.
Import Config Engine RateLimiter.

(** [user.username or user.first_name] *)
Definition display_name (user : tg_user) : string :=
  match tg_username user with
  | Some n => if String.eqb n "" then first_name user else n
  | None => first_name user
  end.

Definition ensure_user (user : tg_user) (d : db) : db :=
  let name := display_name user in
  set_users
    (set_username name (tg_id user)
       (insert_or_ignore_user name (tg_id user) (users d))) d.

Definition refresh_weekly_snapshot (week_start : string) (d : db) : db :=
  set_snapshot ((λ u, mk_snapshot (coins u) week_start) <$> users d) d.

Definition cmd_start (user : tg_user) (d : db) : db := ensure_user user d.

Definition cmd_balance (user : tg_user) (d : db) : option Z * db :=
  let d1 := ensure_user user d in
  (balance d1 (tg_id user), d1).

Definition cmd_leaderboard (week_start : string) (d : db) : list board_row :=
  leaderboard_query week_start d.

(** The [with _db_lock, get_conn() as conn] block of [cmd_bet]. *)
Definition bet_transaction (user : tg_user) (direction_raw : direction)
    (amt : Z) (d : db) : outcome * db :=
  let d1 := ensure_user user d in
  match get_open_market d1 with
  | None => (Rejected NoMarket, d1)
  | Some market =>
      match users d1 !! tg_id user with
      | None => (Raised, d)
      | Some row =>
          let coins := coins row in
          if coins <? amt then (Rejected InsufficientFunds, d1)
          else if has_unresolved_bet (tg_id user) (market_id_of market) (bets d1)
          then (Rejected DuplicateBet, d1)
          else
            let us := add_coins (- amt) (tg_id user) (users d1) in
            match insert_bet (tg_id user) (market_id_of market) direction_raw amt
                    (bets d1) with
            | None => (Raised, d)
            | Some bs =>
                (Placed direction_raw amt (amt * WIN_MULTIPLIER) (coins - amt),
                 set_bets bs (set_users us d1))
            end
      end
  end.

Section Commands.

(** [int(...)] on a text: the number, or [None] for [ValueError]. *)
Variable py_int : string → option Z.

(** [args] is [context.args], [now] the time the limiter reads. *)
Definition cmd_bet (user : tg_user) (args : list string) (now : Q) (st : state)
  : outcome * state :=
  let '(limited, rb) := is_rate_limited (tg_id user) now (rate_buckets st) in
  let st1 := mk_state (ledger st) rb (api_requests st) in
  if limited then (Rejected RateLimited, st1)
  else
    match args with
    | a0 :: a1 :: _ =>
        match parse_direction (upper a0) with
        | None => (Rejected BadDirection, st1)
        | Some direction_raw =>
            match py_int a1 with
            | None => (Rejected BadAmount, st1)
            | Some amt =>
                if amt <? MIN_BET_AMOUNT then (Rejected BelowMinimum, st1)
                else if MAX_BET_AMOUNT <? amt then (Rejected AboveMaximum, st1)
                else
                  let '(o, d) := bet_transaction user direction_raw amt (ledger st) in
                  (o, mk_state d rb (api_requests st))
            end
        end
    | _ => (Rejected MissingArgs, st1)
    end.

End Commands.

(** [DAILY_REWARD_MESSAGE_ID and reaction.message_id != DAILY_REWARD_MESSAGE_ID] *)
Definition other_message (configured : option Z) (mid : Z) : bool :=
  match configured with
  | Some c => negb (c =? 0) && negb (mid =? c)
  | None => false
  end.

(** [on_reaction] with the configured message id as a parameter; [today] is
    the date the clock gives, [send_ok] whether [send_message] went through. *)
Definition on_reaction_for (configured : option Z) (reaction : option reaction_update)
    (today : string) (send_ok : bool) (d : db) : reward_result * db :=
  match reaction with
  | None => (Ignored, d)
  | Some r =>
      match new_reaction r with
      | [] => (Ignored, d)
      | _ :: _ =>
          if other_message configured (message_id r) then (Ignored, d)
          else
            match reaction_user r with
            | None => (Ignored, d)
            | Some user =>
                if is_bot user then (Ignored, d)
                else
                  let d1 := ensure_user user d in
                  match users d1 !! tg_id user with
                  | Some row =>
                      if decide (last_daily row = Some today)
                      then (AlreadyClaimed, d1)
                      else
                        let us :=
                          alter (λ u, mk_user (username u)
                                        (coins u + DAILY_REWARD_AMOUNT) (Some today))
                            (tg_id user) (users d1) in
                        match us !! tg_id user with
                        | Some row' => (Granted (coins row') send_ok, set_users us d1)
                        | None => (RewardRaised, d)
                        end
                  | None => (RewardRaised, d)
                  end
            end
      end
  end.

Definition on_reaction := on_reaction_for DAILY_REWARD_MESSAGE_ID.

End Bot.

(** ** The API server ([server.py]) *)

(** How a handler of the API passes a check: with the answer that ends the
    request, or on to the next statement. *)
Inductive checked (A : Type) :=
| Answer (o : outcome)
| Go (a : A).

Arguments Answer {A} o.
Arguments Go {A} a.

(** What a value compares as with an INTEGER column once it is bound to a
    statement's parameter. *)
Inductive bound :=
| Unbindable          (* sqlite3 refuses the value: the statement raises *)
| NoInteger           (* bound, and equal to no integer *)
| Integer (z : Z).

(** What [POST /api/user] ends in: 400, an exception (500), or the row with
    its weekly gain and rank. *)
Inductive user_answer :=
| BadRequest
| UserRaised
| Answered (user : user_row) (gain rank : Z).

Module Server.
Import Engine.

Definition WIN_MULTIPLIER : Z := 2.

(** Python's truth value. *)
Definition truthy_text (s : string) : bool := negb (String.eqb s "").

Definition truthy (v : jvalue) : bool :=
  match v with
  | JNull => false
  | JBool b => b
  | JInt z => negb (z =? 0)
  | JFloat f => negb (PrimFloat.eqb f 0%float)   (* [-0.0] is false, [NaN] true *)
  | JStr s => truthy_text s
  | JArr empty | JObj empty => negb empty
  end.

(** [(body.get("direction") or "")]: the text [.upper()] is called on, or
    [None] where the value has no such method (AttributeError). *)
Definition direction_text (v : jvalue) : option string :=
  match v with
  | JStr s => Some s
  | _ => if truthy v then None else Some ""
  end.

(** A finite float cut to an integer, towards zero; [None] for an infinity
    and for [NaN]. *)
Definition float_trunc (f : float) : option Z :=
  match FloatOps.Prim2SF f with
  | SpecFloat.S754_zero _ => Some 0
  | SpecFloat.S754_finite sign m e =>
      let magnitude :=
        if 0 <=? e then Z.pos m * 2 ^ e else Z.pos m / 2 ^ (- e) in
      Some (if sign then - magnitude else magnitude)
  | _ => None
  end.

(** The integer a float is equal to, if it is equal to one. *)
Definition float_integer (f : float) : option Z :=
  match FloatOps.Prim2SF f with
  | SpecFloat.S754_zero _ => Some 0
  | SpecFloat.S754_finite sign m e =>
      if 0 <=? e then Some (if sign then - (Z.pos m * 2 ^ e) else Z.pos m * 2 ^ e)
      else if Z.pos m mod 2 ^ (- e) =? 0
           then Some (if sign then - (Z.pos m / 2 ^ (- e)) else Z.pos m / 2 ^ (- e))
           else None
  | _ => None
  end.

Definition is_infinite (f : float) : bool :=
  match FloatOps.Prim2SF f with
  | SpecFloat.S754_infinity _ => true
  | _ => false
  end.

(** The range of an SQLite INTEGER. *)
Definition int64 (z : Z) : bool := (- 2 ^ 63 <=? z) && (z <? 2 ^ 63).


Section Routes.

Variable py_int : string → option Z.

(** The integer SQLite reads a text as when it compares it with, or stores
    it in, an INTEGER column, if the text stands for one. *)
Variable sql_integer : string → option Z.

(** [int(amount)] raises OverflowError, which the handler does not catch,
    on an infinity. *)
Definition int_raises (v : jvalue) : bool :=
  match v with
  | JFloat f => is_infinite f
  | _ => false
  end.

(** [int(amount)] otherwise: [None] for the TypeError and ValueError the
    handler catches. *)
Definition int_of (v : jvalue) : option Z :=
  match v with
  | JNull => None
  | JBool b => Some (if b then 1 else 0)
  | JInt z => Some z
  | JFloat f => float_trunc f
  | JStr s => py_int s
  | JArr _ | JObj _ => None
  end.

(** The parameter [user_id] (or [telegram_id]) of a statement.  sqlite3
    raises OverflowError on an int outside 64 bits and refuses an array or
    an object; a float is bound as a REAL, a text as a TEXT that the
    column's affinity reads. *)
Definition bind (v : jvalue) : bound :=
  match v with
  | JNull => NoInteger
  | JBool b => Integer (if b then 1 else 0)
  | JInt z => if int64 z then Integer z else Unbindable
  | JFloat f =>
      match float_integer f with
      | Some z => if int64 z then Integer z else NoInteger
      | None => NoInteger
      end
  | JStr s =>
      match sql_integer s with
      | Some z => Integer z
      | None => NoInteger
      end
  | JArr _ | JObj _ => Unbindable
  end.

(** [place_bet] up to its [with get_db() as conn]: the direction and the
    amount of a body that passes. *)
Definition validate (body : bet_request) : checked (direction * Z) :=
  match direction_text (req_direction body) with
  | None => Answer Raised
  | Some text =>
      let direction := upper text in
      if negb (truthy (req_user_id body) && truthy_text direction
               && truthy (req_amount body))
      then Answer (Rejected MissingArgs)
      else
        match parse_direction direction with
        | None => Answer (Rejected BadDirection)
        | Some dir =>
            if int_raises (req_amount body) then Answer Raised
            else
              match int_of (req_amount body) with
              | None => Answer (Rejected BadAmount)
              | Some amt =>
                  if amt <? 1 then Answer (Rejected BelowMinimum)
                  else if 10000 <? amt then Answer (Rejected AboveMaximum)
                  else Go (dir, amt)
              end
        end
  end.

(** [SELECT * FROM users WHERE telegram_id=?] and the balance check. *)
Definition check_user (user_id : jvalue) (amt : Z) (d : db) : checked Z :=
  match bind user_id with
  | Unbindable => Answer Raised
  | NoInteger => Answer (Rejected UserNotFound)
  | Integer uid =>
      match users d !! uid with
      | None => Answer (Rejected UserNotFound)
      | Some user =>
          if coins user <? amt then Answer (Rejected InsufficientFunds)
          else Go uid
      end
  end.

(** [SELECT id FROM bets WHERE user_id=? AND market_id=? AND resolved=0] *)
Definition check_existing (uid : Z) (market : market_row) (d : db) : checked unit :=
  if has_unresolved_bet uid (market_id_of market) (bets d)
  then Answer (Rejected DuplicateBet)
  else Go tt.

(** [REFERENCES users(telegram_id)] and [REFERENCES markets(id)], enforced
    ([PRAGMA foreign_keys=ON]). *)
Definition references_ok (uid mid : Z) (d : db) : bool :=
  bool_decide (is_Some (users d !! uid)) &&
  existsb (λ m, market_id_of m =? mid) (markets d).

(** The transaction: the UPDATE, the INSERT and the SELECT of the new
    balance.  An IntegrityError leaves the [with] block, which rolls back. *)
Definition write_bet (uid : Z) (market : market_row) (dir : direction) (amt : Z)
    (d : db) : outcome * db :=
  let us := add_coins (- amt) uid (users d) in
  if references_ok uid (market_id_of market) d
  then
    match insert_bet uid (market_id_of market) dir amt (bets d) with
    | None => (Raised, d)
    | Some bs =>
        match us !! uid with
        | Some row =>
            (Placed dir amt (amt * WIN_MULTIPLIER) (coins row),
             set_bets bs (set_users us d))
        | None => (Raised, d)
        end
    end
  else (Raised, d).

(** [POST /api/bet], its statements run one after the other without
    another operation in between. *)
Definition place_bet (body : bet_request) (d : db) : outcome * db :=
  match validate body with
  | Answer o => (o, d)
  | Go (dir, amt) =>
      match get_open_market d with
      | None => (Rejected NoMarket, d)
      | Some market =>
          match check_user (req_user_id body) amt d with
          | Answer o => (o, d)
          | Go uid =>
              match check_existing uid market d with
              | Answer o => (o, d)
              | Go _ => write_bet uid market dir amt d
              end
          end
      end
  end.

(** The same handler statement by statement.  [api_begin] runs it up to
    and including the SELECT of the open market. *)
Definition api_begin (body : bet_request) (d : db) : checked api_request :=
  match validate body with
  | Answer o => Answer o
  | Go _ =>
      match get_open_market d with
      | None => Answer (Rejected NoMarket)
      | Some market => Go (mk_api_request body market AwaitUser)
      end
  end.

Definition at_stage (r : api_request) (stage : api_stage) : api_request :=
  mk_api_request (api_body r) (api_market r) stage.

(** The next statement of a request under way, on the ledger as it is
    then: the answer that ends the request or the request one stage on,
    and the ledger afterwards.  The market is the one the request read; the
    balance is not read again before the UPDATE. *)
Definition api_next (r : api_request) (d : db) : checked api_request * db :=
  match validate (api_body r) with
  | Answer o => (Answer o, d)        (* no request [api_begin] lets through *)
  | Go (dir, amt) =>
      match api_stage_of r with
      | AwaitUser =>
          match check_user (req_user_id (api_body r)) amt d with
          | Answer o => (Answer o, d)
          | Go _ => (Go (at_stage r AwaitExisting), d)
          end
      | AwaitExisting =>
          match bind (req_user_id (api_body r)) with
          | Integer uid =>
              match check_existing uid (api_market r) d with
              | Answer o => (Answer o, d)
              | Go _ => (Go (at_stage r AwaitWrite), d)
              end
          | _ => (Answer Raised, d)  (* no request that passed [check_user] *)
          end
      | AwaitWrite =>
          match bind (req_user_id (api_body r)) with
          | Integer uid =>
              let '(o, d') := write_bet uid (api_market r) dir amt d in
              (Answer o, d')
          | _ => (Answer Raised, d)
          end
      end
  end.

(** [POST /api/user]: 400 without a [telegram_id]; an exception when the id
    cannot be stored as the INTEGER PRIMARY KEY (OverflowError, datatype
    mismatch); else the row with its weekly gain and rank.  [name] is the
    body's [username], ["unknown"] when it has none. *)
Definition upsert_user (tg : jvalue) (name : string) (week : string) (d : db)
  : user_answer * db :=
  if negb (truthy tg) then (BadRequest, d)
  else
    match bind tg with
    | Integer uid =>
        let d1 :=
          set_users (set_username name uid (insert_or_ignore_user name uid (users d))) d in
        match users d1 !! uid with
        | Some user =>
            let rank :=
              Z.of_nat (size (filter (λ kv, coins user < coins kv.2) (users d1))) + 1 in
            (Answered user (weekly_gain week d1 uid user) rank, d1)
        | None => (UserRaised, d)
        end
    | _ => (UserRaised, d)
    end.

End Routes.

Definition leaderboard (week : string) (d : db) : list board_row * string :=
  (leaderboard_query week d, week).

End Server.

(** ** The two programs as one system *)

(** What can happen: the scheduler's jobs, the bot's handlers and the API's
    routes, each with what the outside world answers it. *)
Inductive event :=
| EvStartup (price : option float) (now : Q)
| EvResolve (close_p : option float) (now : Q) (next_p : option float) (now' : Q)
| EvSnapshot (week_start : string)
| EvStart (user : tg_user)
| EvBalance (user : tg_user)
| EvBet (user : tg_user) (args : list string) (now : Q)
| EvReaction (reaction : option reaction_update) (today : string) (send_ok : bool)
| EvApiUser (tg : jvalue) (name : string) (week : string)
| EvApiBet (body : bet_request)
| EvApiBetBegin (request : Z) (body : bet_request)
| EvApiBetNext (request : Z).

Definition on_ledger (f : db → db) (s : state) : state :=
  mk_state (f (ledger s)) (rate_buckets s) (api_requests s).

Section System.

Variable py_int : string → option Z.
Variable sql_integer : string → option Z.

(** One event.  [EvStartup] is a start of the bot process: [_rate_buckets]
    is empty again.  [EvApiBet] is a bet request of the API served without
    another operation in between; [EvApiBetBegin] and [EvApiBetNext] serve
    one statement by statement, under a number that names the request while
    it is under way (a number in use starts nothing, an unknown one
    continues nothing). *)
Definition step (s : state) (e : event) : state :=
  match e with
  | EvStartup price now =>
      mk_state (Engine.startup price now (ledger s)) ∅ (api_requests s)
  | EvResolve close_p now next_p now' =>
      on_ledger (Engine.resolve_market close_p now next_p now') s
  | EvSnapshot week_start => on_ledger (Bot.refresh_weekly_snapshot week_start) s
  | EvStart user => on_ledger (Bot.cmd_start user) s
  | EvBalance user => on_ledger (λ d, (Bot.cmd_balance user d).2) s
  | EvBet user args now => (Bot.cmd_bet py_int user args now s).2
  | EvReaction reaction today send_ok =>
      on_ledger (λ d, (Bot.on_reaction reaction today send_ok d).2) s
  | EvApiUser tg name week =>
      on_ledger (λ d, (Server.upsert_user sql_integer tg name week d).2) s
  | EvApiBet body =>
      on_ledger (λ d, (Server.place_bet py_int sql_integer body d).2) s
  | EvApiBetBegin request body =>
      match api_requests s !! request with
      | Some _ => s
      | None =>
          match Server.api_begin py_int body (ledger s) with
          | Answer _ => s
          | Go r =>
              mk_state (ledger s) (rate_buckets s) (<[request := r]> (api_requests s))
          end
      end
  | EvApiBetNext request =>
      match api_requests s !! request with
      | None => s
      | Some r =>
          match Server.api_next py_int sql_integer r (ledger s) with
          | (Answer _, d) =>
              mk_state d (rate_buckets s) (delete request (api_requests s))
          | (Go r', d) =>
              mk_state d (rate_buckets s) (<[request := r']> (api_requests s))
          end
      end
  end.

Definition run (es : list event) (s : state) : state := fold_left step es s.

End System.

(** A fresh database file and a bot that has just started. *)
Definition initial_state : state := mk_state empty_db ∅ ∅.

(** ** Predicates on the ledger *)

(** The number of markets whose status is OPEN. *)
Definition open_count (d : db) : nat := length (List.filter is_open (markets d)).

(** No balance is negative, and no stake is. *)
Definition coins_ok (d : db) : Prop :=
  (∀ uid u, users d !! uid = Some u → 0 ≤ coins u) ∧
  (∀ b, In b (bets d) → 0 ≤ amount b).

(** Every bet names a market of the table, and a bet on a market that is
    still OPEN is unresolved. *)
Definition bets_ok (d : db) : Prop :=
  (∀ b, In b (bets d) → In (bet_market b) (map market_id_of (markets d))) ∧
  (∀ b m, In b (bets d) → In m (markets d) →
          market_id_of m = bet_market b → status m = OPEN → resolved b = false).

(** [UNIQUE(user_id, market_id)]: no two bets of one user on one market. *)
Definition bet_key (b : bet_row) : Z * Z := (bet_user b, bet_market b).

Definition bets_unique (d : db) : Prop := NoDup (map bet_key (bets d)).

(** What a settlement credits a bet with. *)
Definition payout (close_p open_p : float) (b : bet_row) : Z :=
  if Engine.is_tie close_p open_p then amount b
  else if direction_eqb (bet_direction b) (Engine.winning_direction close_p open_p)
       then amount b * Config.WIN_MULTIPLIER
       else 0.

(** The sum of what the rows of [l] that belong to [uid] are credited. *)
Definition credited (f : bet_row → Z) (uid : Z) (l : list bet_row) : Z :=
  fold_right Z.add 0 (map f (List.filter (λ b, bet_user b =? uid) l)).

(** A decimal reader for the examples: digits only. *)
Fixpoint digits_value (acc : Z) (s : string) : option Z :=
  match s with
  | EmptyString => Some acc
  | String c rest =>
      let n := Z.of_nat (nat_of_ascii c) in
      if (48 <=? n) && (n <=? 57) then digits_value (10 * acc + (n - 48)) rest
      else None
  end.

Definition read_decimal (s : string) : option Z :=
  match s with
  | EmptyString => None
  | _ => digits_value 0 s
  end.

(** ** How a bet transaction ends, and the limiter's buckets *)

(** The three ways a bet transaction ends: [d0] is the ledger before it and
    [d1] the ledger its checks read. *)
Inductive bet_effect (uid : Z) (dir : direction) (amt : Z) (d0 d1 : db)
  : outcome → db → Prop :=
| bet_raised : bet_effect uid dir amt d0 d1 Raised d0
| bet_rejected r :
    r = NoMarket ∨ r = UserNotFound ∨ r = InsufficientFunds ∨ r = DuplicateBet →
    (r = NoMarket → Engine.get_open_market d1 = None) →
    (r = UserNotFound → users d1 !! uid = None) →
    (r = InsufficientFunds → ∃ row, users d1 !! uid = Some row ∧ coins row < amt) →
    bet_effect uid dir amt d0 d1 (Rejected r) d1
| bet_placed market row :
    Engine.get_open_market d1 = Some market →
    users d1 !! uid = Some row →
    amt ≤ coins row →
    has_unresolved_bet uid (market_id_of market) (bets d1) = false →
    (∀ b, In b (bets d1) → ¬ (bet_user b = uid ∧ bet_market b = market_id_of market)) →
    bet_effect uid dir amt d0 d1
      (Placed dir amt (amt * 2) (coins row - amt))
      (mk_db (add_coins (- amt) uid (users d1)) (markets d1)
         (bets d1 ++ [mk_bet (next_id (map bet_id (bets d1))) uid
                        (market_id_of market) dir amt false])
         (weekly_coins_snapshot d1)).

(** Consecutive attempts of one user at the times [ts]: the limiter's
    answers, in order, and the buckets afterwards. *)
Fixpoint attempts (uid : Z) (ts : list Q) (rb : gmap Z (list Q))
  : list bool * gmap Z (list Q) :=
  match ts with
  | [] => ([], rb)
  | t :: rest =>
      let '(limited, rb1) := RateLimiter.is_rate_limited uid t rb in
      let '(answers, rb2) := attempts uid rest rb1 in
      (limited :: answers, rb2)
  end.

(** No bucket holds more than [BET_RATE_LIMIT_COUNT] timestamps. *)
Definition buckets_ok (rb : gmap Z (list Q)) : Prop :=
  ∀ k b, rb !! k = Some b → (length b ≤ Config.BET_RATE_LIMIT_COUNT)%nat.

Definition bucket_of (uid : Z) (rb : gmap Z (list Q)) : list Q :=
  default [] (rb !! uid).

(** ** Ledgers and sessions for the examples *)

Definition alice : tg_user := mk_tg_user 1 (Some "alice") "Alice" false.
Definition bob : tg_user := mk_tg_user 2 None "Bob" false.

(** The bot starts, Alice and Bob claim the daily reward, both bet, and the
    market settles 500 higher. *)
Definition session : list event :=
  [EvStartup (Some 50000%float) 0;
   EvReaction (Some (mk_reaction ["heart"] 5 (Some alice))) "2026-01-05" true;
   EvReaction (Some (mk_reaction ["heart"] 5 (Some bob))) "2026-01-05" false;
   EvBet alice ["up"; "100"] 10;
   EvBet bob ["DOWN"; "50"] 11;
   EvResolve (Some 50500%float) 300 (Some 50500%float) 300].

(** A bet request of the API that a settlement and a bet on the bot
    overtake.  Alice holds 100 coins.  Her request for 100 on UP reads the
    open market (the first), her balance and that she has no bet on it;
    then the tick settles the first market and opens the second, and her
    [/bet up 100] on the bot takes her 100 coins; then the request's UPDATE
    and INSERT run. *)
Definition overtaken_request : bet_request :=
  mk_bet_request (JInt 1) (JStr "up") (JInt 100).

Definition overtaken_start : list event :=
  [EvStartup (Some 50000%float) 0;
   EvReaction (Some (mk_reaction ["heart"] 5 (Some alice))) "2026-01-05" true;
   EvApiBetBegin 1 overtaken_request;      (* the open market *)
   EvApiBetNext 1;                         (* the user's row: 100 coins *)
   EvApiBetNext 1].                        (* no bet on the market *)

Definition overtaken_session : list event :=
  overtaken_start ++
  [EvResolve (Some 50500%float) 300 (Some 50500%float) 300;
   EvBet alice ["up"; "100"] 301;
   EvApiBetNext 1].                        (* the transaction *)

(** The same request overtaken by the bot's bet alone, on the same market. *)
Definition overtaken_on_one_market : list event :=
  overtaken_start ++ [EvBet alice ["up"; "100"] 200].

(** The scenario of the specification: open 50000, close 50500, A staked 100
    on UP and B 50 on DOWN. *)
Definition settle_demo_market : market_row :=
  mk_market 1 50000%float None 0 (Some 300%Q) OPEN.


(** A ledger with one open market and Alice holding 100 coins. *)
Definition admit_demo_market : market_row :=
  mk_market 1 50000%float None 0 (Some 300%Q) OPEN.

Definition admit_demo : db :=
  mk_db (<[1 := mk_user "alice" 100 None]> ∅) [admit_demo_market] [] ∅.

(** The scenario of the specification: a user with balance 10 asks for a bet
    of 50. *)
Definition poor_demo : db :=
  mk_db (<[1 := mk_user "alice" 10 None]> ∅) [admit_demo_market] [] ∅.

(** Three attempts by Alice on the bot within three seconds, each with a bad
    direction: the limiter has recorded all three. *)
Definition busy_state : state :=
  run read_decimal read_decimal
    [EvBet alice ["sideways"; "60"] 0; EvBet alice ["sideways"; "60"] 1;
     EvBet alice ["sideways"; "60"] 2]
    (mk_state admit_demo ∅ ∅).

(** Alice claimed today under the name the ledger holds; the Telegram name
    of the account has changed since. *)
Definition claimed_demo : db :=
  mk_db (<[1 := mk_user "alice" 100 (Some "2026-01-05")]> ∅) [] [] ∅.

Definition alice_renamed : tg_user := mk_tg_user 1 (Some "alice_b") "Alice" false.

(** ** The API's read routes ([server.py]) *)

(** A row of [GET /api/bets/recent]: the bet, the two prices of its market
    and the [won] flag. *)
Record recent_row := mk_recent {
  recent_bet : bet_row;
  recent_open_price : float;
  recent_close_price : option float;
  won : bool
}.

Module Queries.
Import Engine.

(** [GET /api/market]: the open market, or [None] for the 404 answer. *)
Definition current_market (d : db) : option market_row := get_open_market d.

(** The [CASE] of the recent-bets query; a comparison with a NULL close
    price is not true. *)
Definition won_flag (b : bet_row) (m : market_row) : bool :=
  resolved b &&
  match close_price m with
  | Some c =>
      (PrimFloat.ltb (open_price m) c && direction_eqb (bet_direction b) UP) ||
      (PrimFloat.ltb c (open_price m) && direction_eqb (bet_direction b) DOWN)
  | None => false
  end.

(** [ORDER BY b.id DESC] *)
Definition newer_first (a b : recent_row) : Prop :=
  bet_id (recent_bet b) ≤ bet_id (recent_bet a).

#[local] Instance newer_first_dec a b : Decision (newer_first a b).
Proof. unfold newer_first. apply _. Defined.

Section Reads.

(** The [user_id] of a query string is a text; SQLite compares it with the
    INTEGER column after giving it the column's affinity.  [sql_integer] is
    the integer such a text stands for, if it stands for one. *)
Variable sql_integer : string → option Z.

Definition same_user (column : Z) (param : string) : bool :=
  match sql_integer param with
  | Some z => column =? z
  | None => false
  end.


(** [GET /api/bets/recent]: [None] is the 400 answer. *)
Definition recent_bets (user_id : option string) (d : db) : option (list recent_row) :=
  match user_id with
  | None => None
  | Some uid =>
      if String.eqb uid "" then None
      else
        Some (take 10
                (merge_sort newer_first
                   (flat_map
                      (λ b, map (λ m, mk_recent b (open_price m) (close_price m)
                                        (won_flag b m))
                              (List.filter (λ m, market_id_of m =? bet_market b)
                                 (markets d)))
                      (List.filter (λ b, same_user (bet_user b) uid) (bets d)))))
  end.

End Reads.

End Queries.

(** ** The calendar ([_current_week_start], in both programs) *)

Module Calendar.

(** A date is its proleptic Gregorian ordinal ([date.toordinal()]; day 1 is
    Monday, 1 January of year 1).  [date.weekday()], Monday being 0. *)
Definition weekday (ordinal : Z) : Z := (ordinal + 6) mod 7.

(** [today - timedelta(days=today.weekday())] *)
Definition monday_of (today : Z) : Z := today - weekday today.

Section Iso.

(** [date.isoformat()] *)
Variable isoformat : Z → string.

Definition current_week_start (today : Z) : string := isoformat (monday_of today).

End Iso.

End Calendar.

(** ** Counting what a run grants *)

(** 1 when the event is a reaction that grants [uid] the daily reward. *)
Definition grants_to (uid : Z) (e : event) (s : state) : nat :=
  match e with
  | EvReaction (Some r) today send_ok =>
      match (Bot.on_reaction (Some r) today send_ok (ledger s)).1, reaction_user r with
      | Granted _ _, Some u => if tg_id u =? uid then 1%nat else 0%nat
      | _, _ => 0%nat
      end
  | _ => 0%nat
  end.


Definition is_resolve (e : event) : bool :=
  match e with EvResolve _ _ _ _ => true | _ => false end.

Definition is_snapshot (e : event) : bool :=
  match e with EvSnapshot _ => true | _ => false end.

Definition is_startup (e : event) : bool :=
  match e with EvStartup _ _ => true | _ => false end.

Definition reaction_date (e : event) : option string :=
  match e with EvReaction _ today _ => Some today | _ => None end.

(** No two markets share an id. *)
Definition ids_unique (d : db) : Prop := NoDup (map market_id_of (markets d)).


Section Counting.

Variable py_int : string → option Z.
Variable sql_integer : string → option Z.

(** The number of daily rewards a run grants [uid]. *)
Fixpoint grants_in_run (uid : Z) (es : list event) (s : state) : nat :=
  match es with
  | [] => 0%nat
  | e :: rest => (grants_to uid e s + grants_in_run uid rest (step py_int sql_integer s e))%nat
  end.

End Counting.

(** The user's row holds [today] as the date of the last claim. *)
Definition claimed (uid : Z) (today : string) (d : db) : Prop :=
  ∃ row, users d !! uid = Some row ∧ last_daily row = Some today.

(** Every row of [d] is still there in [d'], with the claim date it had. *)
Definition claim_dates_kept (d d' : db) : Prop :=
  ∀ uid row, users d !! uid = Some row →
    ∃ row', users d' !! uid = Some row' ∧ last_daily row' = last_daily row.

(** The row [open_new_market] inserts into the ledger [d] at the price
    [price] and the time [now]. *)
Definition market_opened (price : float) (now : Q) (d : db) : market_row :=
  mk_market (next_id (map market_id_of (markets d))) price None now
    (Some (now + inject_Z (Config.MARKET_INTERVAL_MINS * 60))%Q) OPEN.

(** Every stored bet has a stake within the bounds and a user with a row. *)
Definition stakes_ok (d : db) : Prop :=
  ∀ b, In b (bets d) →
       Config.MIN_BET_AMOUNT ≤ amount b ≤ Config.MAX_BET_AMOUNT ∧
       is_Some (users d !! bet_user b).

(** ** An API bet request that is overtaken *)

(** The event is a statement of an API bet request served statement by
    statement. *)
Definition is_api_next (e : event) : bool :=
  match e with EvApiBetNext _ => true | _ => false end.

(** [d'] is [d] after the transaction of an API bet request whose checks ran
    on an earlier ledger: the user's row is debited whatever it holds now,
    and the bet goes in on the market the request read, which the foreign
    keys and the UNIQUE index let through. *)
Definition late_write (d d' : db) : Prop :=
  ∃ uid mid dir amt row,
    1 ≤ amt ≤ 10000 ∧
    users d !! uid = Some row ∧
    In mid (map market_id_of (markets d)) ∧
    (∀ b, In b (bets d) → ¬ (bet_user b = uid ∧ bet_market b = mid)) ∧
    d' = mk_db (add_coins (- amt) uid (users d)) (markets d)
           (bets d ++ [mk_bet (next_id (map bet_id (bets d))) uid mid dir amt false])
           (weekly_coins_snapshot d).

(** ** Tactics *)

Ltac by_reason :=
  solve [ tauto | intros; congruence | intros; eauto
        | intuition (first [congruence | eauto]) ].

(** Read the fields of a rebuilt record, and nothing else. *)
Ltac fields :=
  cbn [fst snd]; unfold set_users, set_bets, set_markets, set_snapshot, on_ledger;
  cbn [users bets markets weekly_coins_snapshot ledger rate_buckets].

(** * Properties *)

(** ** Tables: keys, lookups, folds *)

Lemma next_id_above ids x : In x ids → x < next_id ids.
Proof.
  unfold next_id. induction ids as [|y ids IH]; simpl; [tauto|].
  intros [->|Hx]; [lia|]. specialize (IH Hx). lia.
Qed.

Lemma latest_In ms m : Engine.latest ms = Some m → In m ms.
Proof.
  revert m. induction ms as [|a ms IH]; simpl; intros m; [discriminate|].
  destruct (Engine.latest ms) as [m'|].
  - destruct (market_id_of a <? market_id_of m'); intros [= <-]; auto.
  - intros [= <-]. auto.
Qed.

Lemma latest_None ms : Engine.latest ms = None → ms = [].
Proof.
  destruct ms as [|a ms]; simpl; [done|].
  destruct (Engine.latest ms) as [m'|]; [|discriminate].
  destruct (market_id_of a <? market_id_of m'); discriminate.
Qed.

Lemma get_open_market_In d m :
  Engine.get_open_market d = Some m → In m (markets d) ∧ status m = OPEN.
Proof.
  unfold Engine.get_open_market. intros H%latest_In.
  apply filter_In in H as [Hin Hopen]. split; [done|].
  unfold is_open in Hopen. destruct (status m); [done|discriminate].
Qed.

Lemma get_open_market_None d :
  Engine.get_open_market d = None → open_count d = 0%nat.
Proof.
  unfold Engine.get_open_market, open_count. by intros ->%latest_None.
Qed.

Lemma lookup_add_coins x uid us k :
  add_coins x uid us !! k =
  if decide (uid = k)
  then (λ u, mk_user (username u) (coins u + x) (last_daily u)) <$> us !! k
  else us !! k.
Proof.
  unfold add_coins. rewrite lookup_alter. by case_decide; subst.
Qed.

Lemma credited_cons f uid b l :
  credited f uid (b :: l) =
  (if bet_user b =? uid then f b else 0) + credited f uid l.
Proof. unfold credited. simpl. by destruct (bet_user b =? uid). Qed.

(** A loop of credits adds, to each row, the sum of the credits of its user. *)
Lemma credit_loop_lookup (f : bet_row → Z) l us uid :
  fold_left (λ us row, add_coins (f row) (bet_user row) us) l us !! uid =
  (λ u, mk_user (username u) (coins u + credited f uid l) (last_daily u)) <$> us !! uid.
Proof.
  revert us. induction l as [|b l IH]; intros us; simpl.
  - destruct (us !! uid) as [[n c ld]|]; simpl; [|done].
    unfold credited; simpl. by rewrite Z.add_0_r.
  - rewrite IH, lookup_add_coins, credited_cons.
    destruct (Z.eqb_spec (bet_user b) uid) as [->|Hne].
    + rewrite decide_True by done.
      destruct (us !! uid) as [[n c ld]|]; simpl; [|done].
      do 2 f_equal. lia.
    + rewrite decide_False by done. done.
Qed.

Lemma credited_winners f (win : bet_row → bool) uid l :
  credited f uid (List.filter win l) =
  credited (λ b, if win b then f b else 0) uid l.
Proof.
  induction l as [|b l IH]; [done|]. simpl.
  destruct (win b) eqn:Hw.
  - rewrite !credited_cons, Hw, IH. done.
  - rewrite credited_cons, Hw, IH. destruct (bet_user b =? uid); lia.
Qed.



Lemma In_close_market mid close_p now ms m :
  In m (Engine.close_market mid close_p now ms) →
  ∃ m0, In m0 ms ∧ market_id_of m = market_id_of m0 ∧
        if market_id_of m0 =? mid
        then status m = CLOSED ∧ close_price m = Some close_p ∧
             close_time m = Some now ∧ open_price m = open_price m0
        else m = m0.
Proof.
  unfold Engine.close_market. intros (m0 & <- & Hin)%in_map_iff.
  exists m0. split; [done|].
  destruct (market_id_of m0 =? mid) eqn:E; simpl; by repeat split.
Qed.

Lemma close_market_ids mid close_p now ms :
  map market_id_of (Engine.close_market mid close_p now ms) = map market_id_of ms.
Proof.
  unfold Engine.close_market. rewrite map_map. apply map_ext.
  intros m. by destruct (market_id_of m =? mid).
Qed.

Lemma In_mark_resolved mid bs b :
  In b (Engine.mark_resolved mid bs) →
  ∃ b0, In b0 bs ∧ bet_market b = bet_market b0 ∧ bet_user b = bet_user b0 ∧
        amount b = amount b0 ∧ bet_direction b = bet_direction b0 ∧
        bet_id b = bet_id b0 ∧
        if bet_market b0 =? mid then resolved b = true else b = b0.
Proof.
  unfold Engine.mark_resolved. intros (b0 & <- & Hin)%in_map_iff.
  exists b0. split; [done|].
  destruct (bet_market b0 =? mid) eqn:E; simpl; by repeat split.
Qed.




Lemma mark_resolved_keys mid bs :
  map bet_key (Engine.mark_resolved mid bs) = map bet_key bs.
Proof.
  unfold Engine.mark_resolved. rewrite map_map. apply map_ext.
  intros b. by destruct (bet_market b =? mid).
Qed.

(** ** Settlement *)

Lemma open_new_market_users price now d :
  users (Engine.open_new_market price now d) = users d.
Proof. by destruct price. Qed.

Lemma open_new_market_bets price now d :
  bets (Engine.open_new_market price now d) = bets d.
Proof. by destruct price. Qed.

Lemma open_new_market_snapshot price now d :
  weekly_coins_snapshot (Engine.open_new_market price now d) = weekly_coins_snapshot d.
Proof. by destruct price. Qed.

Lemma In_open_new_market price now d m :
  In m (markets (Engine.open_new_market price now d)) →
  In m (markets d) ∨
  (∃ p, price = Some p ∧ status m = OPEN ∧ open_price m = p ∧
        market_id_of m = next_id (map market_id_of (markets d))).
Proof.
  destruct price as [p|]; simpl; [|by left].
  intros [H|[<-|[]]]%in_app_or; [by left|].
  right. by exists p.
Qed.

(** The users table after a settlement: each row gains what its user's
    unresolved bets on the market pay. *)
Lemma settled_users_lookup close_p open_p (all_bets : list bet_row) us uid :
  (if Engine.is_tie close_p open_p
   then Engine.refund_all all_bets us
   else Engine.pay_winners
          (List.filter
             (λ r, direction_eqb (bet_direction r)
                     (Engine.winning_direction close_p open_p)) all_bets) us) !! uid =
  (λ u, mk_user (username u) (coins u + credited (payout close_p open_p) uid all_bets)
          (last_daily u)) <$> us !! uid.
Proof.
  unfold payout, Engine.refund_all, Engine.pay_winners.
  destruct (Engine.is_tie close_p open_p).
  - apply credit_loop_lookup.
  - rewrite (credit_loop_lookup (λ b, amount b * Config.WIN_MULTIPLIER)).
    by rewrite credited_winners.
Qed.

(** Literals such as 0.01 stand for the nearest double, as in Python. *)
#[local] Set Warnings "-inexact-float".



(** The tie scenario: the close price equals the open price, and a bettor
    who staked 100 of 150 coins on UP is back at 150. *)
Example tie_refunds_stake :
  let before := mk_db (<[1 := mk_user "A" 150 None]> ∅) [settle_demo_market] [] ∅ in
  let staked := (Bot.bet_transaction (mk_tg_user 1 (Some "A") "A" false) UP 100 before).2 in
  let after := Engine.resolve_market (Some 50000.0%float) 300 None 300 staked in
  Engine.is_tie 50000.0%float 50000%float = true ∧
  balance staked 1 = Some 50 ∧ balance after 1 = Some 150 ∧
  map resolved (bets after) = [true].
Proof. vm_compute. repeat split; reflexivity. Qed.

(** No price at the tick: nothing moves. *)
Example resolve_market_without_price now next_p now' d :
  Engine.resolve_market None now next_p now' d = d.
Proof. reflexivity. Qed.

(** The tolerance at its edge.  A difference of exactly 0.01 is no tie
    ([<], not [<=]), in either direction; half a unit at 50000 is no tie
    either, though it is a hundred-thousandth of the price; half a cent is
    one. *)
Example tie_tolerance :
  Engine.is_tie 0.01%float 0%float = false ∧
  Engine.is_tie 0%float 0.01%float = false ∧
  Engine.is_tie 50000.5%float 50000%float = false ∧
  Engine.is_tie 49999.5%float 50000%float = false ∧
  Engine.is_tie 50000.005%float 50000%float = true ∧
  Engine.is_tie 49999.995%float 50000%float = true ∧
  Engine.winning_direction 50000.5%float 50000%float = UP ∧
  Engine.winning_direction 49999.5%float 50000%float = DOWN.
Proof. vm_compute. repeat split; reflexivity. Qed.


(** ** What each operation does to the ledger *)

Lemma ensure_user_lookup user d k :
  users (Bot.ensure_user user d) !! k =
  if decide (tg_id user = k)
  then Some (match users d !! k with
             | Some u => mk_user (Bot.display_name user) (coins u) (last_daily u)
             | None => mk_user (Bot.display_name user) 0 None
             end)
  else users d !! k.
Proof.
  unfold Bot.ensure_user, set_username, insert_or_ignore_user. simpl.
  rewrite lookup_alter. case_decide as Hk.
  - subst k. destruct (users d !! tg_id user) as [u|] eqn:E.
    + by rewrite E.
    + by rewrite lookup_insert_eq.
  - destruct (users d !! tg_id user) eqn:E; [done|].
    by rewrite lookup_insert_ne.
Qed.

Lemma ensure_user_rest user d :
  markets (Bot.ensure_user user d) = markets d ∧
  bets (Bot.ensure_user user d) = bets d ∧
  weekly_coins_snapshot (Bot.ensure_user user d) = weekly_coins_snapshot d.
Proof. done. Qed.

Lemma ensure_user_open_market user d :
  Engine.get_open_market (Bot.ensure_user user d) = Engine.get_open_market d.
Proof. done. Qed.

(** A row that exists keeps its balance and claim date; a missing one is
    created with no coins. *)
Lemma ensure_user_balance user d k :
  balance (Bot.ensure_user user d) k =
  if decide (tg_id user = k) then Some (default 0 (balance d k)) else balance d k.
Proof.
  unfold balance. rewrite ensure_user_lookup. case_decide; [|done].
  by destruct (users d !! k).
Qed.

Lemma insert_bet_Some uid mid dir amt bs bs' :
  insert_bet uid mid dir amt bs = Some bs' →
  bs' = bs ++ [mk_bet (next_id (map bet_id bs)) uid mid dir amt false] ∧
  (∀ b, In b bs → ¬ (bet_user b = uid ∧ bet_market b = mid)).
Proof.
  unfold insert_bet.
  destruct (existsb _ bs) eqn:E; [discriminate|]. intros [= <-].
  split; [done|]. intros b Hb [Hu Hm].
  assert (existsb (λ b, (bet_user b =? uid) && (bet_market b =? mid)) bs = true);
    [|congruence].
  apply existsb_exists. exists b. split; [done|].
  by rewrite Hu, Hm, !Z.eqb_refl.
Qed.


Lemma bet_transaction_effect user dir amt d :
  bet_effect (tg_id user) dir amt d (Bot.ensure_user user d)
    (Bot.bet_transaction user dir amt d).1 (Bot.bet_transaction user dir amt d).2.
Proof.
  unfold Bot.bet_transaction.
  destruct (Engine.get_open_market (Bot.ensure_user user d)) as [market|] eqn:Hm.
  2:{ simpl. apply bet_rejected; by_reason. }
  destruct (users (Bot.ensure_user user d) !! tg_id user) as [row|] eqn:Hrow.
  2:{ simpl. apply bet_raised. }
  destruct (coins row <? amt) eqn:Hc.
  { simpl. apply bet_rejected; try by_reason.
    intros _. exists row. split; [done|]. lia. }
  destruct (has_unresolved_bet _ _ _) eqn:Hdup.
  { simpl. apply bet_rejected; by_reason. }
  destruct (insert_bet _ _ _ _ _) as [bs|] eqn:Hins.
  2:{ simpl. apply bet_raised. }
  apply insert_bet_Some in Hins as [-> Hfresh].
  assert (amt ≤ coins row) as Hle by lia.
  exact (bet_placed _ _ _ _ (Bot.ensure_user user d) market row Hm Hrow Hle Hdup Hfresh).
Qed.

Section Effects.

Variable py_int : string → option Z.
Variable sql_integer : string → option Z.

(** What a body that passes the checks before the database has. *)
Lemma validate_Go body dir amt :
  Server.validate py_int body = Go (dir, amt) →
  1 ≤ amt ≤ 10000 ∧
  (∃ text, Server.direction_text (req_direction body) = Some text ∧
           parse_direction (upper text) = Some dir) ∧
  Server.truthy (req_user_id body) = true ∧
  Server.truthy (req_amount body) = true ∧
  Server.int_raises (req_amount body) = false ∧
  Server.int_of py_int (req_amount body) = Some amt.
Proof.
  unfold Server.validate.
  destruct (Server.direction_text _) as [text|]; [|discriminate].
  destruct (Server.truthy (req_user_id body)); [|discriminate].
  destruct (Server.truthy_text _); [|discriminate].
  destruct (Server.truthy (req_amount body)); [|discriminate]. simpl.
  destruct (parse_direction _) as [dir0|] eqn:Hdir; [|discriminate].
  destruct (Server.int_raises _); [discriminate|].
  destruct (Server.int_of py_int _) as [amt0|]; [|discriminate].
  destruct (amt0 <? 1) eqn:Hlo; [discriminate|].
  destruct (10000 <? amt0) eqn:Hhi; [discriminate|].
  intros [= <- <-]. repeat split; try done; try lia. by exists text.
Qed.

(** The answers the checks before the database give: 400, or an exception
    on a direction that is no text and on an infinite amount. *)
Lemma validate_Answer body o :
  Server.validate py_int body = Answer o →
  o = Raised ∨
  ∃ r, o = Rejected r ∧
       (r = MissingArgs ∨ r = BadDirection ∨ r = BadAmount ∨
        r = BelowMinimum ∨ r = AboveMaximum).
Proof.
  clear sql_integer.
  unfold Server.validate.
  destruct (Server.direction_text _) as [text|]; [|intros [= <-]; by left].
  destruct (negb _); [intros [= <-]; right; eexists; split; [done|tauto]|].
  destruct (parse_direction _) as [dir0|];
    [|intros [= <-]; right; eexists; split; [done|tauto]].
  destruct (Server.int_raises _); [intros [= <-]; by left|].
  destruct (Server.int_of py_int _) as [amt0|];
    [|intros [= <-]; right; eexists; split; [done|tauto]].
  destruct (amt0 <? 1); [intros [= <-]; right; eexists; split; [done|tauto]|].
  destruct (10000 <? amt0); [intros [= <-]; right; eexists; split; [done|tauto]|].
  discriminate.
Qed.

(** The transaction of the API as a bet transaction, where the checks that
    precede it have passed on the ledger it runs on. *)
Lemma write_bet_effect uid market dir amt d row :
  Engine.get_open_market d = Some market →
  users d !! uid = Some row →
  amt ≤ coins row →
  has_unresolved_bet uid (market_id_of market) (bets d) = false →
  bet_effect uid dir amt d d
    (Server.write_bet uid market dir amt d).1 (Server.write_bet uid market dir amt d).2.
Proof.
  intros Hm Hrow Hle Hdup. unfold Server.write_bet.
  destruct (Server.references_ok _ _ _); [|apply bet_raised].
  destruct (insert_bet _ _ _ _ _) as [bs|] eqn:Hins; [|apply bet_raised].
  apply insert_bet_Some in Hins as [-> Hfresh].
  rewrite lookup_add_coins, decide_True, Hrow by done. simpl.
  replace (coins row + - amt) with (coins row - amt) by lia.
  exact (bet_placed _ _ _ _ d market row Hm Hrow Hle Hdup Hfresh).
Qed.

(** [place_bet], served in one piece: a bet transaction of the user the id
    stands for, or an answer that leaves the ledger as it is. *)
Lemma place_bet_effect body d :
  (∃ uid dir amt,
     1 ≤ amt ≤ 10000 ∧
     Server.validate py_int body = Go (dir, amt) ∧
     Server.bind sql_integer (req_user_id body) = Integer uid ∧
     bet_effect uid dir amt d d
       (Server.place_bet py_int sql_integer body d).1
       (Server.place_bet py_int sql_integer body d).2)
  ∨ ∃ o, Server.place_bet py_int sql_integer body d = (o, d) ∧
         (o = Raised ∨
          ∃ r, o = Rejected r ∧
               (r = MissingArgs ∨ r = BadDirection ∨ r = BadAmount ∨
                r = BelowMinimum ∨ r = AboveMaximum ∨ r = NoMarket ∨
                r = UserNotFound)).
Proof.
  unfold Server.place_bet.
  destruct (Server.validate py_int body) as [o|[dir amt]] eqn:Hv.
  { right. exists o. split; [done|].
    destruct (validate_Answer _ _ Hv) as [->|(r & -> & Hr)]; [by left|].
    right. exists r. split; [done|]. tauto. }
  destruct (validate_Go _ _ _ Hv) as (Hamt & _).
  destruct (Engine.get_open_market d) as [market|] eqn:Hm.
  2:{ right. eexists. split; [done|]. right. eexists. split; [done|]. tauto. }
  unfold Server.check_user.
  destruct (Server.bind sql_integer (req_user_id body)) as [| |uid] eqn:Hb.
  { right. eexists. split; [done|]. by left. }
  { right. eexists. split; [done|]. right. eexists. split; [done|]. tauto. }
  left. exists uid, dir, amt. split; [done|]. split; [done|]. split; [done|].
  destruct (users d !! uid) as [row|] eqn:Hrow.
  2:{ simpl. apply bet_rejected; by_reason. }
  destruct (coins row <? amt) eqn:Hc.
  { simpl. apply bet_rejected; try by_reason.
    intros _. exists row. split; [done|]. lia. }
  unfold Server.check_existing.
  destruct (has_unresolved_bet _ _ _) eqn:Hdup.
  { simpl. apply bet_rejected; by_reason. }
  apply (write_bet_effect uid market dir amt d row); try done. lia.
Qed.

(** A statement of a request under way leaves the ledger as it is, or is
    the transaction. *)
Lemma write_bet_late uid market dir amt d :
  1 ≤ amt ≤ 10000 →
  (Server.write_bet uid market dir amt d).2 = d ∨
  late_write d (Server.write_bet uid market dir amt d).2.
Proof.
  clear py_int sql_integer.
  intros Hamt. unfold Server.write_bet, Server.references_ok.
  case_bool_decide as Hrow; cbn [andb]; [|by left].
  destruct (existsb _ (markets d)) eqn:Hmid; [|by left].
  destruct (insert_bet _ _ _ _ _) as [bs|] eqn:Hins; [|by left].
  destruct Hrow as [row Hrow].
  apply insert_bet_Some in Hins as [-> Hfresh].
  rewrite lookup_add_coins, decide_True, Hrow by done. cbn [fmap option_fmap option_map].
  right. exists uid, (market_id_of market), dir, amt, row.
  split; [done|]. split; [done|]. split; [|by split].
  apply existsb_exists in Hmid as (m & Hm & <-%Z.eqb_eq). by apply in_map.
Qed.

Lemma api_next_ledger r d :
  (Server.api_next py_int sql_integer r d).2 = d ∨
  late_write d (Server.api_next py_int sql_integer r d).2.
Proof.
  unfold Server.api_next.
  destruct (Server.validate py_int (api_body r)) as [o|[dir amt]] eqn:Hv; [by left|].
  destruct (validate_Go _ _ _ Hv) as [Hamt _].
  destruct (api_stage_of r).
  - destruct (Server.check_user _ _ _ _); by left.
  - destruct (Server.bind _ _); try by left.
    destruct (Server.check_existing _ _ _); by left.
  - destruct (Server.bind _ _) as [| |uid]; try by left.
    pose proof (write_bet_late uid (api_market r) dir amt d Hamt) as H.
    by destruct (Server.write_bet _ _ _ _ _).
Qed.

(** What the late transaction leaves alone, and what it adds. *)
Lemma late_write_frame d d' :
  late_write d d' →
  markets d' = markets d ∧
  weekly_coins_snapshot d' = weekly_coins_snapshot d ∧
  (∃ b, bets d' = bets d ++ [b] ∧ resolved b = false ∧ 1 ≤ amount b ≤ 10000 ∧
        is_Some (users d !! bet_user b) ∧
        In (bet_market b) (map market_id_of (markets d)) ∧
        ∀ b0, In b0 (bets d) →
              ¬ (bet_user b0 = bet_user b ∧ bet_market b0 = bet_market b)) ∧
  (∀ k u, users d !! k = Some u →
     ∃ u', users d' !! k = Some u' ∧ username u' = username u ∧
           last_daily u' = last_daily u).
Proof.
  clear py_int sql_integer.
  intros (uid & mid & dir & amt & row & Hamt & Hrow & Hmid & Hfresh & ->).
  split; [done|]. split; [done|]. split.
  - eexists. split; [done|]. cbn [resolved amount bet_user bet_market].
    by rewrite Hrow.
  - intros k u Hu. cbn [users]. rewrite lookup_add_coins, Hu.
    case_decide; by eexists.
Qed.

Lemma step_api_begin s request body :
  ledger (step py_int sql_integer s (EvApiBetBegin request body)) = ledger s ∧
  rate_buckets (step py_int sql_integer s (EvApiBetBegin request body)) = rate_buckets s.
Proof.
  cbn [step]. destruct (api_requests s !! request); [done|].
  by destruct (Server.api_begin _ _ _).
Qed.

Lemma step_api_next s request :
  (ledger (step py_int sql_integer s (EvApiBetNext request)) = ledger s ∨
   late_write (ledger s) (ledger (step py_int sql_integer s (EvApiBetNext request)))) ∧
  rate_buckets (step py_int sql_integer s (EvApiBetNext request)) = rate_buckets s.
Proof.
  cbn [step]. destruct (api_requests s !! request) as [r|]; [|by split; [left|]].
  pose proof (api_next_ledger r (ledger s)) as H.
  by destruct (Server.api_next _ _ _ _) as [[o|r'] d'].
Qed.

End Effects.

Section One_piece.

Variable py_int : string → option Z.
Variable sql_integer : string → option Z.

(** A bet request of the API served statement by statement with nothing in
    between is the request served in one piece. *)
Lemma api_bet_in_one_piece request body s :
  api_requests s !! request = None →
  run py_int sql_integer
    [EvApiBetBegin request body; EvApiBetNext request; EvApiBetNext request;
     EvApiBetNext request] s =
  step py_int sql_integer s (EvApiBet body).
Proof.
  intros Hfree. destruct s as [d rb reqs]. simpl in Hfree.
  unfold run. cbn [fold_left].
  assert (∀ d', step py_int sql_integer (mk_state d' rb reqs) (EvApiBetNext request) =
                mk_state d' rb reqs) as Hdone.
  { intros d'. cbn [step api_requests]. by rewrite Hfree. }
  assert (∀ d0 r,
            step py_int sql_integer (mk_state d0 rb (<[request := r]> reqs))
              (EvApiBetNext request) =
            match Server.api_next py_int sql_integer r d0 with
            | (Answer _, d') => mk_state d' rb reqs
            | (Go r', d') => mk_state d' rb (<[request := r']> reqs)
            end) as Hnext.
  { intros d0 r. cbn [step api_requests ledger rate_buckets].
    rewrite lookup_insert_eq.
    destruct (Server.api_next py_int sql_integer r d0) as [[o|r'] d'].
    - by rewrite delete_insert_id.
    - by rewrite insert_insert_eq. }
  change (step py_int sql_integer (mk_state d rb reqs) (EvApiBet body))
    with (mk_state (Server.place_bet py_int sql_integer body d).2 rb reqs).
  change (step py_int sql_integer (mk_state d rb reqs) (EvApiBetBegin request body))
    with (match reqs !! request with
          | Some _ => mk_state d rb reqs
          | None =>
              match Server.api_begin py_int body d with
              | Answer _ => mk_state d rb reqs
              | Go r => mk_state d rb (<[request := r]> reqs)
              end
          end).
  rewrite Hfree. unfold Server.api_begin, Server.place_bet.
  destruct (Server.validate py_int body) as [o|[dir amt]] eqn:Hv;
    [by rewrite !Hdone|].
  destruct (Engine.get_open_market d) as [market|]; [|by rewrite !Hdone].
  rewrite Hnext. unfold Server.api_next at 1.
  cbn [api_body api_stage_of api_market]. rewrite Hv.
  unfold Server.check_user.
  destruct (Server.bind sql_integer (req_user_id body)) as [| |uid] eqn:Hb;
    [by rewrite !Hdone..|].
  destruct (users d !! uid) as [row|]; [|by rewrite !Hdone].
  destruct (coins row <? amt); [by rewrite !Hdone|].
  unfold Server.at_stage. cbn [api_body api_market].
  rewrite Hnext. unfold Server.api_next at 1.
  cbn [api_body api_stage_of api_market]. rewrite Hv, Hb.
  destruct (Server.check_existing uid market d) as [o|[]]; [by rewrite !Hdone|].
  unfold Server.at_stage. cbn [api_body api_market].
  rewrite Hnext. unfold Server.api_next at 1.
  cbn [api_body api_stage_of api_market]. rewrite Hv, Hb.
  by destruct (Server.write_bet uid market dir amt d) as [o d'].
Qed.

End One_piece.

Section Effects_cmd_bet.

Variable py_int : string → option Z.
Variable sql_integer : string → option Z.

(** [cmd_bet] either answers before the transaction, the ledger untouched,
    or runs the transaction on a stake within the bounds. *)
Lemma cmd_bet_effect user args now st :
  let res := Bot.cmd_bet py_int user args now st in
  let lim := RateLimiter.is_rate_limited (tg_id user) now (rate_buckets st) in
  rate_buckets res.2 = lim.2 ∧
  ((∃ r, res.1 = Rejected r ∧ ledger res.2 = ledger st ∧
         (lim.1 = true → r = RateLimited) ∧
         (lim.1 = false →
          r = MissingArgs ∨ r = BadDirection ∨ r = BadAmount ∨
          r = BelowMinimum ∨ r = AboveMaximum)) ∨
   (∃ dir amt,
      lim.1 = false ∧ 1 ≤ amt ≤ 10000 ∧
      res.1 = (Bot.bet_transaction user dir amt (ledger st)).1 ∧
      ledger res.2 = (Bot.bet_transaction user dir amt (ledger st)).2)).
Proof.
  clear sql_integer.
  unfold Bot.cmd_bet. cbv zeta.
  destruct (RateLimiter.is_rate_limited _ _ _) as [[|] rb]; simpl.
  { split; [done|]. left. exists RateLimited. by_reason. }
  destruct args as [|a0 [|a1 rest]];
    try (split; [done|]; left; exists MissingArgs; by_reason).
  destruct (parse_direction (upper a0)) as [dir|];
    [|split; [done|]; left; exists BadDirection; by_reason].
  destruct (py_int a1) as [amt|];
    [|split; [done|]; left; exists BadAmount; by_reason].
  unfold Config.MIN_BET_AMOUNT, Config.MAX_BET_AMOUNT.
  destruct (amt <? 1) eqn:Hlo;
    [split; [done|]; left; exists BelowMinimum; by_reason|].
  destruct (10000 <? amt) eqn:Hhi;
    [split; [done|]; left; exists AboveMaximum; by_reason|].
  destruct (Bot.bet_transaction user dir amt (ledger st)) as [o d] eqn:E.
  simpl. split; [done|]. right. exists dir, amt. rewrite E.
  repeat split; try done; lia.
Qed.

End Effects_cmd_bet.

(** The ways a reaction event ends. *)
Lemma on_reaction_for_effect configured reaction today send_ok d :
  let res := Bot.on_reaction_for configured reaction today send_ok d in
  (res = (Ignored, d)) ∨ (res = (RewardRaised, d)) ∨
  (∃ r user row,
     reaction = Some r ∧ new_reaction r ≠ [] ∧
     Bot.other_message configured (message_id r) = false ∧
     reaction_user r = Some user ∧ is_bot user = false ∧
     users (Bot.ensure_user user d) !! tg_id user = Some row ∧
     ((last_daily row = Some today ∧ res = (AlreadyClaimed, Bot.ensure_user user d)) ∨
      (last_daily row ≠ Some today ∧
       res = (Granted (coins row + Config.DAILY_REWARD_AMOUNT) send_ok,
              set_users
                (alter (λ u, mk_user (username u)
                               (coins u + Config.DAILY_REWARD_AMOUNT) (Some today))
                   (tg_id user) (users (Bot.ensure_user user d)))
                (Bot.ensure_user user d))))).
Proof.
  unfold Bot.on_reaction_for. cbv zeta.
  destruct reaction as [r|]; [|by left].
  destruct (new_reaction r) as [|e es] eqn:Hnew; [by left|].
  destruct (Bot.other_message _ _) eqn:Hmsg; [by left|].
  destruct (reaction_user r) as [user|] eqn:Hu; [|by left].
  destruct (is_bot user) eqn:Hbot; [by left|].
  destruct (users (Bot.ensure_user user d) !! tg_id user) as [row|] eqn:Hrow;
    [|by right; left].
  right; right. exists r, user, row. rewrite Hnew.
  repeat split; try done.
  case_decide as Hld; [by left|]. right. split; [done|].
  rewrite lookup_alter_eq. rewrite Hrow. done.
Qed.

Lemma upsert_user_effect sql_integer tg name week d :
  (Server.upsert_user sql_integer tg name week d).2 = d ∨
  ∃ uid, Server.bind sql_integer tg = Integer uid ∧ Server.truthy tg = true ∧
    (Server.upsert_user sql_integer tg name week d).2 =
    set_users (set_username name uid (insert_or_ignore_user name uid (users d))) d.
Proof.
  unfold Server.upsert_user.
  destruct (Server.truthy tg) eqn:Ht; simpl; [|by left].
  destruct (Server.bind sql_integer tg) as [| |uid]; [by left..|].
  destruct (_ !! uid); [|by left]. right. by exists uid.
Qed.

(** [upsert_user] writes what [ensure_user] writes. *)
Lemma upsert_as_ensure_user name uid d :
  set_users (set_username name uid (insert_or_ignore_user name uid (users d))) d =
  Bot.ensure_user (mk_tg_user uid None name false) d.
Proof. done. Qed.

(** A settlement that finds an open market, step by step. *)
Lemma resolve_market_open close_p now next_p now' d market :
  Engine.get_open_market d = Some market →
  Engine.resolve_market (Some close_p) now next_p now' d =
  Engine.open_new_market next_p now'
    (mk_db
       (if Engine.is_tie close_p (open_price market)
        then Engine.refund_all
               (Engine.unresolved_bets (market_id_of market) (bets d)) (users d)
        else Engine.pay_winners
               (List.filter
                  (λ r, direction_eqb (bet_direction r)
                          (Engine.winning_direction close_p (open_price market)))
                  (Engine.unresolved_bets (market_id_of market) (bets d)))
               (users d))
       (Engine.close_market (market_id_of market) close_p now (markets d))
       (Engine.mark_resolved (market_id_of market) (bets d))
       (weekly_coins_snapshot d)).
Proof.
  intros H. unfold Engine.resolve_market. rewrite H. simpl.
  by destruct (Engine.is_tie close_p (open_price market)).
Qed.

(** ** Balances never go below zero *)

Lemma coins_ok_frame d d' :
  users d' = users d → bets d' = bets d → coins_ok d → coins_ok d'.
Proof. unfold coins_ok. by intros -> ->. Qed.

Lemma coins_ok_empty : coins_ok empty_db.
Proof. split; [intros uid u; simpl; by rewrite lookup_empty|intros b []]. Qed.

Lemma coins_ok_ensure_user user d : coins_ok d → coins_ok (Bot.ensure_user user d).
Proof.
  intros [Hu Hb]. split; [|done]. intros k u. rewrite ensure_user_lookup.
  case_decide; [|apply Hu]. intros [= <-].
  destruct (users d !! k) as [u0|] eqn:E; simpl; [by apply (Hu k)|done].
Qed.

Lemma coins_ok_open_new_market price now d :
  coins_ok d → coins_ok (Engine.open_new_market price now d).
Proof.
  apply coins_ok_frame; [apply open_new_market_users|apply open_new_market_bets].
Qed.

Lemma coins_ok_bet_effect uid dir amt d0 d1 o d' :
  bet_effect uid dir amt d0 d1 o d' → 0 ≤ amt →
  coins_ok d0 → coins_ok d1 → coins_ok d'.
Proof.
  intros [| |market row Hm Hrow Hle Hdup Hfresh] Hamt Hd0 Hd1; [done..|].
  destruct Hd1 as [Hu Hb]. split; simpl.
  - intros k u. rewrite lookup_add_coins. case_decide as Hk; [|apply Hu].
    subst k. rewrite Hrow. intros [= <-]. simpl. lia.
  - intros b [Hin|[<-|[]]]%in_app_or; [by apply Hb|done].
Qed.

Lemma credited_nonneg f uid l :
  (∀ b, In b l → 0 ≤ f b) → 0 ≤ credited f uid l.
Proof.
  induction l as [|b l IH]; intros H; [done|]. rewrite credited_cons.
  assert (0 ≤ f b) by (apply H; by left).
  assert (0 ≤ credited f uid l) by (apply IH; intros; apply H; by right).
  destruct (bet_user b =? uid); lia.
Qed.

Lemma payout_nonneg close_p open_p b : 0 ≤ amount b → 0 ≤ payout close_p open_p b.
Proof.
  unfold payout, Config.WIN_MULTIPLIER.
  destruct (Engine.is_tie _ _); [lia|].
  destruct (direction_eqb _ _); lia.
Qed.

Lemma coins_ok_resolve_market close_p now next_p now' d :
  coins_ok d → coins_ok (Engine.resolve_market close_p now next_p now' d).
Proof.
  intros Hok. destruct close_p as [c|]; [|done].
  destruct (Engine.get_open_market d) as [market|] eqn:Hm.
  2:{ unfold Engine.resolve_market. rewrite Hm. by apply coins_ok_open_new_market. }
  rewrite (resolve_market_open _ _ _ _ _ _ Hm).
  apply coins_ok_open_new_market. destruct Hok as [Hu Hb]. split; simpl.
  - intros k u. rewrite settled_users_lookup.
    destruct (users d !! k) as [u0|] eqn:E; [|done]. intros [= <-]. simpl.
    specialize (Hu k u0 E).
    assert (0 ≤ credited (payout c (open_price market)) k
                  (Engine.unresolved_bets (market_id_of market) (bets d))); [|lia].
    apply credited_nonneg. intros b [Hb' _]%filter_In.
    by apply payout_nonneg, Hb.
  - intros b (b0 & Hb0 & _ & _ & -> & _)%In_mark_resolved. by apply Hb.
Qed.

Lemma coins_ok_on_reaction configured reaction today send_ok d :
  coins_ok d → coins_ok (Bot.on_reaction_for configured reaction today send_ok d).2.
Proof.
  intros Hok.
  destruct (on_reaction_for_effect configured reaction today send_ok d)
    as [->|[->|(r & user & row & _ & _ & _ & _ & _ & Hrow & [[_ ->]|[_ ->]])]];
    try done; fields.
  - by apply coins_ok_ensure_user.
  - apply (coins_ok_ensure_user user) in Hok as [Hu Hb]. split; [|done]. fields.
    intros k u. rewrite lookup_alter. case_decide as Hk; [|apply Hu].
    subst k. rewrite Hrow. intros [= <-]. simpl. specialize (Hu _ _ Hrow).
    unfold Config.DAILY_REWARD_AMOUNT. lia.
Qed.

Lemma coins_ok_upsert_user sql_integer tg name week d :
  coins_ok d → coins_ok (Server.upsert_user sql_integer tg name week d).2.
Proof.
  intros Hok. destruct (upsert_user_effect sql_integer tg name week d) as [->|(uid & _ & _ & ->)];
    [done|].
  rewrite upsert_as_ensure_user. by apply coins_ok_ensure_user.
Qed.

Section Invariant_coins.

Variable py_int : string → option Z.
Variable sql_integer : string → option Z.

Lemma coins_ok_cmd_bet user args now st :
  coins_ok (ledger st) → coins_ok (ledger (Bot.cmd_bet py_int user args now st).2).
Proof.
  intros Hok.
  destruct (cmd_bet_effect py_int user args now st)
    as [_ [(r & _ & -> & _)|(dir & amt & _ & Hamt & _ & ->)]]; [done|].
  eapply coins_ok_bet_effect; [apply bet_transaction_effect|lia|done|].
  by apply coins_ok_ensure_user.
Qed.

Lemma coins_ok_place_bet body d :
  coins_ok d → coins_ok (Server.place_bet py_int sql_integer body d).2.
Proof.
  intros Hok.
  destruct (place_bet_effect py_int sql_integer body d)
    as [(uid & dir & amt & Hamt & _ & _ & He)|(o & -> & _)]; [|done].
  eapply coins_ok_bet_effect; [apply He|lia|done|done].
Qed.

(** Every event but the late transaction of an API bet request keeps the
    balances at 0 or more. *)
Lemma coins_ok_step s e :
  is_api_next e = false →
  coins_ok (ledger s) → coins_ok (ledger (step py_int sql_integer s e)).
Proof.
  intros He Hok. destruct e; try discriminate He; [simpl..|].
  - unfold Engine.startup. destruct (Engine.get_open_market _); [done|].
    by apply coins_ok_open_new_market.
  - by apply coins_ok_resolve_market.
  - revert Hok. by apply coins_ok_frame.
  - by apply coins_ok_ensure_user.
  - by apply coins_ok_ensure_user.
  - by apply coins_ok_cmd_bet.
  - by apply coins_ok_on_reaction.
  - by apply coins_ok_upsert_user.
  - by apply coins_ok_place_bet.
  - by rewrite (proj1 (step_api_begin py_int sql_integer s request body)).
Qed.

Lemma coins_ok_run es s :
  Forall (λ e, is_api_next e = false) es →
  coins_ok (ledger s) → coins_ok (ledger (run py_int sql_integer es s)).
Proof.
  revert s. induction es as [|e es IH]; intros s Hes Hok; [done|].
  apply Forall_cons in Hes as [He Hes]. simpl. by apply IH, coins_ok_step.
Qed.

(** As long as every API bet request is served in one piece, no balance
    goes below 0. *)
Lemma balance_never_negative_serially es s uid c :
  Forall (λ e, is_api_next e = false) es →
  coins_ok (ledger s) →
  balance (ledger (run py_int sql_integer es s)) uid = Some c →
  0 ≤ c.
Proof.
  intros Hes Hok Hbal. destruct (coins_ok_run es s Hes Hok) as [Hu _].
  unfold balance in Hbal.
  destruct (users (ledger (run py_int sql_integer es s)) !! uid) as [u|] eqn:E; [|done].
  injection Hbal as <-. by apply (Hu uid).
Qed.

End Invariant_coins.

(** C5 on the code.  The API's bet handler takes no lock and checks the
    balance before its transaction opens.  At [overtaken_session] the
    request's checks pass on a balance of 100, a settlement and a bet on the
    bot come in between, and the request's UPDATE then takes 100 from a
    balance of 0: Alice ends at -100, with a second, unresolved bet on the
    market that is CLOSED.  The same events with the request served in one
    piece, before the tick or after the bot's bet, leave no balance
    negative ([balance_never_negative_serially]). *)
Lemma api_bet_overtaken :
  let s := run read_decimal read_decimal overtaken_session initial_state in
  balance (ledger (run read_decimal read_decimal overtaken_start initial_state)) 1 =
    Some 100 ∧
  balance (ledger s) 1 = Some (-100) ∧
  map status (markets (ledger s)) = [CLOSED; OPEN] ∧
  map (λ b, (bet_user b, bet_market b, amount b, resolved b)) (bets (ledger s)) =
    [(1, 2, 100, false); (1, 1, 100, false)] ∧
  ¬ coins_ok (ledger s).
Proof.
  cbv zeta.
  assert (users (ledger (run read_decimal read_decimal overtaken_session
                           initial_state)) !! 1 =
          Some (mk_user "alice" (-100) (Some "2026-01-05"))) as Hrow
      by (vm_compute; reflexivity).
  split; [vm_compute; reflexivity|]. split; [vm_compute; reflexivity|].
  split; [vm_compute; reflexivity|]. split; [vm_compute; reflexivity|].
  intros [Hcoins _]. specialize (Hcoins 1 _ Hrow). simpl in Hcoins. lia.
Qed.

(** Overtaken on one market, the request ends in an exception: its INSERT
    runs into the UNIQUE index, and the transaction, the UPDATE with it, is
    rolled back. *)
Example api_bet_overtaken_on_one_market :
  let s := run read_decimal read_decimal overtaken_on_one_market initial_state in
  ∃ r, api_requests s !! 1 = Some r ∧
       Server.api_next read_decimal read_decimal r (ledger s) = (Answer Raised, ledger s) ∧
       balance (ledger s) 1 = Some 0.
Proof.
  cbv zeta. eexists. split; [vm_compute; reflexivity|].
  split; vm_compute; reflexivity.
Qed.

(** ** Markets: how many are open *)

Lemma open_count_frame d d' : markets d' = markets d → open_count d' = open_count d.
Proof. unfold open_count. by intros ->. Qed.

Lemma open_count_open_new_market price now d :
  open_count (Engine.open_new_market price now d) =
  (open_count d + match price with Some _ => 1 | None => 0 end)%nat.
Proof.
  unfold open_count. destruct price as [p|]; simpl; [|lia].
  rewrite List.filter_app, length_app. simpl. lia.
Qed.

Lemma close_market_open_count mid close_p now ms :
  (length (List.filter is_open (Engine.close_market mid close_p now ms)) ≤
   length (List.filter is_open ms))%nat.
Proof.
  induction ms as [|m ms IH]; [done|].
  change (Engine.close_market mid close_p now (m :: ms)) with
    ((if market_id_of m =? mid
      then mk_market (market_id_of m) (open_price m) (Some close_p)
             (open_time m) (Some now) CLOSED
      else m) :: Engine.close_market mid close_p now ms).
  destruct (market_id_of m =? mid); cbn [List.filter];
    destruct (is_open m); cbn; lia.
Qed.

Lemma close_market_closes_one close_p now ms m :
  In m ms → status m = OPEN →
  (S (length (List.filter is_open (Engine.close_market (market_id_of m) close_p now ms))) ≤
   length (List.filter is_open ms))%nat.
Proof.
  intros Hin Hst. induction ms as [|a ms IH]; [done|].
  destruct Hin as [->|Hin].
  - pose proof (close_market_open_count (market_id_of m) close_p now ms).
    change (Engine.close_market (market_id_of m) close_p now (m :: ms)) with
      ((if market_id_of m =? market_id_of m
        then mk_market (market_id_of m) (open_price m) (Some close_p)
               (open_time m) (Some now) CLOSED
        else m) :: Engine.close_market (market_id_of m) close_p now ms).
    assert (is_open m = true) as Hopen by (unfold is_open; by rewrite Hst).
    rewrite Z.eqb_refl. cbn [List.filter]. rewrite Hopen. cbn. lia.
  - specialize (IH Hin).
    change (Engine.close_market (market_id_of m) close_p now (a :: ms)) with
      ((if market_id_of a =? market_id_of m
        then mk_market (market_id_of a) (open_price a) (Some close_p)
               (open_time a) (Some now) CLOSED
        else a) :: Engine.close_market (market_id_of m) close_p now ms).
    destruct (market_id_of a =? market_id_of m); cbn [List.filter];
      destruct (is_open a); cbn; lia.
Qed.

Lemma open_count_startup price now d :
  (open_count d ≤ 1 → open_count (Engine.startup price now d) ≤ 1)%nat.
Proof.
  unfold Engine.startup. destruct (Engine.get_open_market d) eqn:E; [done|].
  rewrite open_count_open_new_market, (get_open_market_None _ E).
  destruct price; lia.
Qed.

(** A settlement that finds an open market closes it, and opens one market
    when the next price is there. *)
Lemma open_count_resolve_open close_p now next_p now' d market :
  Engine.get_open_market d = Some market →
  (open_count d ≤ 1)%nat →
  open_count (Engine.resolve_market (Some close_p) now next_p now' d) =
  match next_p with Some _ => 1%nat | None => 0%nat end.
Proof.
  intros Hm Hle. rewrite (resolve_market_open _ _ _ _ _ _ Hm).
  rewrite open_count_open_new_market.
  destruct (get_open_market_In _ _ Hm) as [Hin Hst].
  pose proof (close_market_closes_one close_p now _ _ Hin Hst) as H.
  unfold open_count in *. simpl. destruct next_p; lia.
Qed.

Lemma open_count_resolve_market close_p now next_p now' d :
  (open_count d ≤ 1 →
   open_count (Engine.resolve_market close_p now next_p now' d) ≤ 1)%nat.
Proof.
  intros Hle. destruct close_p as [c|]; [|done].
  destruct (Engine.get_open_market d) as [market|] eqn:Hm.
  - rewrite (open_count_resolve_open _ _ _ _ _ _ Hm Hle). destruct next_p; lia.
  - unfold Engine.resolve_market. rewrite Hm, open_count_open_new_market.
    rewrite (get_open_market_None _ Hm). destruct next_p; lia.
Qed.

Lemma bet_effect_markets uid dir amt d0 d1 o d' :
  bet_effect uid dir amt d0 d1 o d' → markets d' = markets d0 ∨ markets d' = markets d1.
Proof. intros [| |]; auto. Qed.

Lemma on_reaction_markets configured reaction today send_ok d :
  markets (Bot.on_reaction_for configured reaction today send_ok d).2 = markets d ∧
  bets (Bot.on_reaction_for configured reaction today send_ok d).2 = bets d ∧
  weekly_coins_snapshot (Bot.on_reaction_for configured reaction today send_ok d).2 =
  weekly_coins_snapshot d.
Proof.
  destruct (on_reaction_for_effect configured reaction today send_ok d)
    as [->|[->|(r & user & row & _ & _ & _ & _ & _ & Hrow & [[_ ->]|[_ ->]])]];
    done.
Qed.

Lemma upsert_user_markets sql_integer tg name week d :
  markets (Server.upsert_user sql_integer tg name week d).2 = markets d ∧
  bets (Server.upsert_user sql_integer tg name week d).2 = bets d ∧
  weekly_coins_snapshot (Server.upsert_user sql_integer tg name week d).2 = weekly_coins_snapshot d.
Proof.
  by destruct (upsert_user_effect sql_integer tg name week d) as [->|(uid & _ & _ & ->)].
Qed.

Section Invariant_markets.

Variable py_int : string → option Z.
Variable sql_integer : string → option Z.

Lemma cmd_bet_markets user args now st :
  markets (ledger (Bot.cmd_bet py_int user args now st).2) = markets (ledger st).
Proof.
  destruct (cmd_bet_effect py_int user args now st)
    as [_ [(r & _ & -> & _)|(dir & amt & _ & Hamt & _ & ->)]]; [done|].
  by destruct (bet_effect_markets _ _ _ _ _ _ _ (bet_transaction_effect user dir amt (ledger st))).
Qed.

Lemma place_bet_markets body d :
  markets (Server.place_bet py_int sql_integer body d).2 = markets d.
Proof.
  destruct (place_bet_effect py_int sql_integer body d)
    as [(? & ? & ? & _ & _ & _ & He)|(o & -> & _)]; [|done].
  by destruct (bet_effect_markets _ _ _ _ _ _ _ He).
Qed.

Lemma open_count_step s e :
  (open_count (ledger s) ≤ 1 → open_count (ledger (step py_int sql_integer s e)) ≤ 1)%nat.
Proof.
  intros Hle. destruct e; [cbn [step]; fields; unfold Bot.on_reaction..| |].
  - by apply open_count_startup.
  - by apply open_count_resolve_market.
  - done.
  - done.
  - done.
  - by rewrite (open_count_frame _ _ (cmd_bet_markets _ _ _ _)).
  - by rewrite (open_count_frame _ _ (proj1 (on_reaction_markets _ _ _ _ _))).
  - by rewrite (open_count_frame _ _ (proj1 (upsert_user_markets _ _ _ _ _))).
  - by rewrite (open_count_frame _ _ (place_bet_markets _ _)).
  - by rewrite (proj1 (step_api_begin py_int sql_integer s request body)).
  - destruct (proj1 (step_api_next py_int sql_integer s request)) as [->|Hlate];
      [done|].
    by rewrite (open_count_frame _ _ (proj1 (late_write_frame _ _ Hlate))).
Qed.

Lemma open_count_run es s :
  (open_count (ledger s) ≤ 1 → open_count (ledger (run py_int sql_integer es s)) ≤ 1)%nat.
Proof.
  revert s. induction es as [|e es IH]; intros s Hle; [done|].
  simpl. by apply IH, open_count_step.
Qed.

End Invariant_markets.

(** ** Bets and their markets *)







Section Invariant_bets.

Variable py_int : string → option Z.
Variable sql_integer : string → option Z.





End Invariant_bets.

(** ** One bet per user and market *)

Lemma bets_unique_frame d d' : bets d' = bets d → bets_unique d → bets_unique d'.
Proof. unfold bets_unique. by intros ->. Qed.

Lemma bets_unique_empty : bets_unique empty_db.
Proof. apply NoDup_nil_2. Qed.

Lemma bets_unique_resolve_market close_p now next_p now' d :
  bets_unique d → bets_unique (Engine.resolve_market close_p now next_p now' d).
Proof.
  intros Hok. destruct close_p as [c|]; [|done].
  destruct (Engine.get_open_market d) as [market|] eqn:Hm.
  - rewrite (resolve_market_open _ _ _ _ _ _ Hm). unfold bets_unique.
    rewrite open_new_market_bets. simpl. by rewrite mark_resolved_keys.
  - unfold Engine.resolve_market. rewrite Hm. unfold bets_unique.
    by rewrite open_new_market_bets.
Qed.

Lemma bets_unique_bet_effect uid dir amt d0 d1 o d' :
  bet_effect uid dir amt d0 d1 o d' → bets_unique d0 → bets_unique d1 → bets_unique d'.
Proof.
  intros [| |market row Hm Hrow Hle Hdup Hfresh] Hd0 Hd1; [done..|].
  unfold bets_unique in *. simpl. rewrite map_app. simpl.
  apply NoDup_app. split; [done|]. split; [|apply NoDup_singleton].
  intros k Hk%list_elem_of_In ->%list_elem_of_singleton.
  apply in_map_iff in Hk as (b & Hkey & Hb). injection Hkey as Hu Hmk.
  by apply (Hfresh b Hb).
Qed.

Lemma bets_unique_late_write d d' : late_write d d' → bets_unique d → bets_unique d'.
Proof.
  intros (_ & _ & (b & Hb & _ & _ & _ & _ & Hfresh) & _)%late_write_frame Hd.
  unfold bets_unique in *. rewrite Hb, map_app. simpl.
  apply NoDup_app. split; [done|]. split; [|apply NoDup_singleton].
  intros k Hk%list_elem_of_In ->%list_elem_of_singleton.
  apply in_map_iff in Hk as (b0 & Hkey & Hb0). injection Hkey as Hu Hmk.
  by apply (Hfresh b0 Hb0).
Qed.

Section Invariant_unique.

Variable py_int : string → option Z.
Variable sql_integer : string → option Z.

Lemma bets_unique_step s e :
  bets_unique (ledger s) → bets_unique (ledger (step py_int sql_integer s e)).
Proof.
  intros Hok. destruct e; [cbn [step]; fields; unfold Bot.on_reaction..| |].
  - unfold Engine.startup. destruct (Engine.get_open_market _); [done|].
    unfold bets_unique. by rewrite open_new_market_bets.
  - by apply bets_unique_resolve_market.
  - done.
  - done.
  - done.
  - destruct (cmd_bet_effect py_int user args now s)
      as [_ [(r & _ & -> & _)|(dir & amt & _ & Hamt & _ & ->)]]; [done|].
    eapply bets_unique_bet_effect; [apply bet_transaction_effect|done|done].
  - destruct (on_reaction_markets Config.DAILY_REWARD_MESSAGE_ID reaction today
                send_ok (ledger s)) as (_ & Hb & _).
    by apply (bets_unique_frame _ _ Hb).
  - destruct (upsert_user_markets sql_integer tg name week (ledger s)) as (_ & Hb & _).
    by apply (bets_unique_frame _ _ Hb).
  - destruct (place_bet_effect py_int sql_integer body (ledger s))
      as [(? & ? & ? & Hamt & _ & _ & He)|(o & -> & _)];
      [|done].
    eapply bets_unique_bet_effect; [apply He|done|done].
  - by rewrite (proj1 (step_api_begin py_int sql_integer s request body)).
  - destruct (proj1 (step_api_next py_int sql_integer s request)) as [->|Hlate];
      [done|by apply (bets_unique_late_write _ _ Hlate)].
Qed.

Lemma bets_unique_run es s :
  bets_unique (ledger s) → bets_unique (ledger (run py_int sql_integer es s)).
Proof.
  revert s. induction es as [|e es IH]; intros s Hok; [done|].
  simpl. by apply IH, bets_unique_step.
Qed.

End Invariant_unique.


(** ** Bet admission *)




(** The rows a bet on the open market refers to are there. *)
Lemma references_ok_open d market uid row :
  Engine.get_open_market d = Some market → users d !! uid = Some row →
  Server.references_ok uid (market_id_of market) d = true.
Proof.
  intros [Hin _]%get_open_market_In Hrow. unfold Server.references_ok.
  rewrite bool_decide_eq_true_2 by (by rewrite Hrow). simpl.
  apply existsb_exists. exists market. split; [done|]. apply Z.eqb_refl.
Qed.


Section Admission.

Variable py_int : string → option Z.
Variable sql_integer : string → option Z.


End Admission.

(** ** A worked session *)

Example session_balances :
  let d := ledger (run read_decimal read_decimal session initial_state) in
  balance d 1 = Some 200 ∧ balance d 2 = Some 50 ∧
  map status (markets d) = [CLOSED; OPEN] ∧ map resolved (bets d) = [true; true].
Proof. vm_compute. repeat split; reflexivity. Qed.



(** ** Exactly one open market? *)

(** C6 as stated, at a reachable ledger: the bot starts and opens a market; the
    next tick fetches a close price, settles, and then fails to fetch the
    price for the new market.  No market is OPEN afterwards. *)
Lemma no_open_market_after_settlement :
  let s := run read_decimal read_decimal
             [EvStartup (Some 50000%float) 0;
              EvResolve (Some 50500%float) 300 None 300] initial_state in
  open_count (ledger s) = 0%nat ∧ open_count (ledger s) ≠ 1%nat ∧
  Engine.get_open_market (ledger s) = None.
Proof. vm_compute. repeat split; [discriminate]. Qed.

Section Open_markets.

Variable py_int : string → option Z.
Variable sql_integer : string → option Z.

(** C6, amended. At every reachable ledger at most one market is OPEN, and
    no operation creates a second one.  A settlement with a close price marks
    the OPEN market CLOSED; when the price for the next market is fetched it
    creates one new OPEN market, so exactly one is OPEN again; when that
    fetch fails no market is OPEN, until a later tick or a start of the bot
    with a price opens one. *)
Theorem at_most_one_open_market :
  (∀ es s, (open_count (ledger s) ≤ 1)%nat →
           (open_count (ledger (run py_int sql_integer es s)) ≤ 1)%nat) ∧
  (∀ es, (open_count (ledger (run py_int sql_integer es initial_state)) ≤ 1)%nat) ∧
  (∀ close_p now next_p now' d market,
     (open_count d ≤ 1)%nat →
     Engine.get_open_market d = Some market →
     let d' := Engine.resolve_market (Some close_p) now next_p now' d in
     (∀ m, In m (markets d') → market_id_of m = market_id_of market →
           status m = CLOSED) ∧
     open_count d' = match next_p with Some _ => 1%nat | None => 0%nat end) ∧
  (∀ close_p now p now' d,
     Engine.get_open_market d = None →
     open_count (Engine.resolve_market (Some close_p) now (Some p) now' d) = 1%nat ∧
     open_count (Engine.startup (Some p) now' d) = 1%nat).
Proof.
  split; [apply open_count_run|]. split.
  { intros es. apply open_count_run. cbn. lia. }
  split.
  - intros close_p now next_p now' d market Hle Hm d'. split.
    + intros m Hin Hid. unfold d' in Hin.
      rewrite (resolve_market_open _ _ _ _ _ _ Hm) in Hin.
      apply In_open_new_market in Hin as [Hin|(p & _ & _ & _ & Hnew)].
      * simpl in Hin. apply In_close_market in Hin as (m0 & _ & Hid0 & Hcl).
        rewrite <- Hid0, Hid, Z.eqb_refl in Hcl. by destruct Hcl.
      * simpl in Hnew. rewrite close_market_ids in Hnew.
        destruct (get_open_market_In _ _ Hm) as [Hin _].
        pose proof (next_id_above _ _ (in_map market_id_of _ _ Hin)). lia.
    + by apply (open_count_resolve_open _ _ _ _ _ market).
  - intros close_p now p now' d Hm. unfold Engine.resolve_market, Engine.startup.
    rewrite Hm, open_count_open_new_market, (get_open_market_None _ Hm). done.
Qed.

End Open_markets.

(** C6, amended, at the worked session and at a settlement that reopens. *)
Lemma at_most_one_open_market_witness :
  (open_count (ledger (run read_decimal read_decimal session initial_state)) ≤ 1)%nat ∧
  open_count
    (Engine.resolve_market (Some 50500%float) 300 (Some 50400%float) 300 admit_demo) =
  1%nat.
Proof.
  split.
  - apply (proj1 (at_most_one_open_market read_decimal read_decimal) session initial_state).
    vm_compute. lia.
  - pose proof (proj1 (proj2 (proj2 (at_most_one_open_market read_decimal read_decimal)))
                  50500%float 300%Q (Some 50400%float) 300%Q admit_demo
                  admit_demo_market) as H.
    cbv zeta in H. apply H; [vm_compute; lia|reflexivity].
Defined.

(** ** Rejected bets *)

(** C3 as stated, at a concrete request: Bob has no row yet and asks the bot for
    a bet of 50.  The request is rejected for insufficient funds, and the
    ledger has changed: it now holds a row for Bob. *)
Lemma rejected_bet_changes_ledger :
  let st := mk_state admit_demo ∅ ∅ in
  let res := Bot.cmd_bet read_decimal bob ["up"; "50"] 10 st in
  res.1 = Rejected InsufficientFunds ∧
  users (ledger st) !! 2 = None ∧
  users (ledger res.2) !! 2 = Some (mk_user "Bob" 0 None) ∧
  rate_buckets res.2 !! 2 = Some [10%Q] ∧
  ledger res.2 ≠ ledger st.
Proof.
  cbv zeta. split; [vm_compute; reflexivity|]. split; [vm_compute; reflexivity|].
  assert (users (ledger (Bot.cmd_bet read_decimal bob ["up"; "50"] 10
                           (mk_state admit_demo ∅ ∅)).2) !! 2 =
          Some (mk_user "Bob" 0 None)) as H by (vm_compute; reflexivity).
  split; [exact H|]. split; [vm_compute; reflexivity|].
  intros E. rewrite E in H. vm_compute in H. discriminate H.
Qed.

Lemma bet_effect_rejected uid dir amt d0 d1 r d' :
  bet_effect uid dir amt d0 d1 (Rejected r) d' →
  d' = d1 ∧ (r = NoMarket ∨ r = UserNotFound ∨ r = InsufficientFunds ∨ r = DuplicateBet) ∧
  (r = UserNotFound → users d1 !! uid = None).
Proof. inversion 1; subst. auto. Qed.

Section Rejections.

Variable py_int : string → option Z.
Variable sql_integer : string → option Z.

(** C3, amended. A rejected bet request creates no bet row and changes no
    market, no snapshot and no balance that exists.  On the API the ledger is
    left exactly as it was.  On the bot a request rejected before the
    transaction (rate limited, missing arguments, bad direction, bad amount)
    leaves the ledger as it was, and one rejected inside it (no open market,
    insufficient funds, duplicate bet) leaves it as [ensure_user] made it:
    the requesting user's row is created with balance 0 when it was missing,
    and its display name is refreshed.  The limiter's buckets are as its
    check left them. *)
Theorem rejected_bet_effects :
  (∀ user args now st r,
     (Bot.cmd_bet py_int user args now st).1 = Rejected r →
     let d := ledger st in
     let d' := ledger (Bot.cmd_bet py_int user args now st).2 in
     (((r = RateLimited ∨ r = MissingArgs ∨ r = BadDirection ∨ r = BadAmount ∨
        r = BelowMinimum ∨ r = AboveMaximum) ∧ d' = d) ∨
      ((r = NoMarket ∨ r = InsufficientFunds ∨ r = DuplicateBet) ∧
       d' = Bot.ensure_user user d)) ∧
     bets d' = bets d ∧ markets d' = markets d ∧
     weekly_coins_snapshot d' = weekly_coins_snapshot d ∧
     (∀ k, k ≠ tg_id user → users d' !! k = users d !! k) ∧
     (∀ k c, balance d k = Some c → balance d' k = Some c) ∧
     (balance d (tg_id user) = None →
      balance d' (tg_id user) = None ∨ balance d' (tg_id user) = Some 0) ∧
     rate_buckets (Bot.cmd_bet py_int user args now st).2 =
       (RateLimiter.is_rate_limited (tg_id user) now (rate_buckets st)).2) ∧
  (∀ body d r,
     (Server.place_bet py_int sql_integer body d).1 = Rejected r →
     (Server.place_bet py_int sql_integer body d).2 = d).
Proof.
  split.
  - intros user args now st r Hr d d'.
    assert (((r = RateLimited ∨ r = MissingArgs ∨ r = BadDirection ∨ r = BadAmount ∨
              r = BelowMinimum ∨ r = AboveMaximum) ∧ d' = d) ∨
            ((r = NoMarket ∨ r = InsufficientFunds ∨ r = DuplicateBet) ∧
             d' = Bot.ensure_user user d)) as Hcases.
    { destruct (cmd_bet_effect py_int user args now st)
        as [_ [(r' & Hr' & Hd & Hlim & Hpre)|(dir & amt & _ & _ & Ho & Hd)]].
      - left. rewrite Hr in Hr'. injection Hr' as <-. split; [|done].
        destruct (RateLimiter.is_rate_limited _ _ _).1; [left; by apply Hlim|].
        right. by apply Hpre.
      - right. pose proof (bet_transaction_effect user dir amt (ledger st)) as He.
        rewrite <- Ho, Hr, <- Hd in He.
        apply bet_effect_rejected in He as (Hd' & Hwhy & Hnone). split; [|done].
        destruct Hwhy as [-> | [-> | [-> | ->]]]; auto.
        specialize (Hnone eq_refl). rewrite ensure_user_lookup, decide_True in Hnone by done.
        discriminate. }
    split; [exact Hcases|].
    pose proof (proj1 (cmd_bet_effect py_int user args now st)) as Hrb.
    destruct Hcases as [[_ ->]|[_ ->]].
    + repeat split; auto.
    + repeat split; try done.
      * intros k Hk. by rewrite ensure_user_lookup, decide_False.
      * intros k c Hc. rewrite ensure_user_balance. case_decide; [|done].
        by rewrite Hc.
      * intros Hnone. right. rewrite ensure_user_balance, decide_True by done.
        by rewrite Hnone.
  - intros body d r Hr.
    destruct (place_bet_effect py_int sql_integer body d)
      as [(? & ? & ? & _ & _ & _ & He)|(o & -> & _)]; [|done].
    rewrite Hr in He. by apply bet_effect_rejected in He as (-> & _).
Qed.

End Rejections.

(** C3, amended, at the scenario of the specification: balance 10, bet 50. *)
Lemma rejected_bet_effects_witness :
  let res := Bot.cmd_bet read_decimal alice ["UP"; "50"] 10 (mk_state poor_demo ∅ ∅) in
  res.1 = Rejected InsufficientFunds ∧
  balance (ledger res.2) 1 = Some 10 ∧
  bets (ledger res.2) = [] ∧
  (Server.place_bet read_decimal read_decimal
     (mk_bet_request (JInt 1) (JStr "UP") (JInt 50)) poor_demo).2 = poor_demo.
Proof.
  cbv zeta.
  pose proof (proj1 (rejected_bet_effects read_decimal read_decimal) alice ["UP"; "50"] 10%Q
                (mk_state poor_demo ∅ ∅) InsufficientFunds) as H.
  cbv zeta in H. destruct H as (_ & Hb & _ & _ & _ & Hbal & _ & _);
    [vm_compute; reflexivity|].
  split; [vm_compute; reflexivity|]. split; [apply Hbal; vm_compute; reflexivity|].
  split; [exact Hb|].
  apply (proj2 (rejected_bet_effects read_decimal read_decimal) _ _ InsufficientFunds).
  vm_compute. reflexivity.
Defined.

(** ** The rate limit on the two front-ends *)

(** C4 as stated, at a concrete request: a fourth request by Alice one second
    later exceeds the limit.  The bot rejects it as rate limited; the API,
    sent the same bet on the same ledger, places it. *)
Lemma api_bet_beyond_rate_limit :
  (RateLimiter.is_rate_limited 1 3 (rate_buckets busy_state)).1 = true ∧
  (Bot.cmd_bet read_decimal alice ["up"; "60"] 3 busy_state).1 = Rejected RateLimited ∧
  (Server.place_bet read_decimal read_decimal
     (mk_bet_request (JInt 1) (JStr "up") (JStr "60")) (ledger busy_state)).1 =
    Placed UP 60 120 40.
Proof. vm_compute. repeat split; reflexivity. Qed.

Section Front_ends.

Variable py_int : string → option Z.
Variable sql_integer : string → option Z.

(** C4, amended. On the bot, bet admission checks the per-user rate limit
    first, before it reads the arguments or touches the ledger, and a request
    that exceeds the limit is rejected as rate limited, the ledger left as it
    was; no other request gets that answer.  The API has no rate limiter: it
    never answers rate limited.  For a request whose user has a row, the two
    front-ends otherwise apply the same checks in the same order (direction,
    integer amount, bounds, open market, balance, unresolved bet): they give
    the same answer and leave the same bets, markets and balances. *)
Theorem rate_limit_checked_first_on_bot :
  (∀ user args now st,
     (RateLimiter.is_rate_limited (tg_id user) now (rate_buckets st)).1 = true →
     Bot.cmd_bet py_int user args now st =
     (Rejected RateLimited,
      mk_state (ledger st)
        (RateLimiter.is_rate_limited (tg_id user) now (rate_buckets st)).2
        (api_requests st))) ∧
  (∀ user args now st,
     (Bot.cmd_bet py_int user args now st).1 = Rejected RateLimited →
     (RateLimiter.is_rate_limited (tg_id user) now (rate_buckets st)).1 = true) ∧
  (∀ body d, (Server.place_bet py_int sql_integer body d).1 ≠ Rejected RateLimited) ∧
  (∀ user id a0 a1 rest now st row,
     (RateLimiter.is_rate_limited (tg_id user) now (rate_buckets st)).1 = false →
     users (ledger st) !! tg_id user = Some row →
     Server.truthy id = true → Server.bind sql_integer id = Integer (tg_id user) →
     a1 ≠ "" → upper a0 ≠ "" →
     let bot := Bot.cmd_bet py_int user (a0 :: a1 :: rest) now st in
     let api := Server.place_bet py_int sql_integer
                  (mk_bet_request id (JStr a0) (JStr a1)) (ledger st) in
     bot.1 = api.1 ∧
     bets (ledger bot.2) = bets api.2 ∧
     markets (ledger bot.2) = markets api.2 ∧
     (∀ k, balance (ledger bot.2) k = balance api.2 k)).
Proof.
  split; [|split; [|split]].
  - intros user args now st Hlim. unfold Bot.cmd_bet.
    destruct (RateLimiter.is_rate_limited _ _ _) as [lim rb]. simpl in *. by subst lim.
  - intros user args now st Hr.
    destruct (cmd_bet_effect py_int user args now st)
      as [_ [(r' & Hr' & _ & _ & Hpre)|(dir & amt & _ & _ & Ho & _)]].
    + rewrite Hr in Hr'. injection Hr' as <-.
      destruct (RateLimiter.is_rate_limited _ _ _).1; [done|].
      destruct (Hpre eq_refl) as [?|[?|[?|[?|?]]]]; discriminate.
    + pose proof (bet_transaction_effect user dir amt (ledger st)) as He.
      rewrite <- Ho, Hr in He. apply bet_effect_rejected in He as (_ & Hwhy & _).
      destruct Hwhy as [?|[?|[?|?]]]; discriminate.
  - intros body d Hr.
    destruct (place_bet_effect py_int sql_integer body d)
      as [(? & ? & ? & _ & _ & _ & He)|(o & Hr' & Hwhy)].
    + rewrite Hr in He. apply bet_effect_rejected in He as (_ & Hwhy & _).
      destruct Hwhy as [?|[?|[?|?]]]; discriminate.
    + rewrite Hr' in Hr. simpl in Hr. subst o.
      destruct Hwhy as [?|(r & [= <-] & Hwhy)]; [done|].
      destruct Hwhy as [?|[?|[?|[?|[?|[?|?]]]]]]; discriminate.
  - intros user id a0 a1 rest now st row Hlim Hrow Hid Huid Ha1 Ha0 bot api.
    unfold bot, api, Bot.cmd_bet, Server.place_bet, Server.validate.
    destruct (RateLimiter.is_rate_limited _ _ _) as [lim rb]. simpl in Hlim. subst lim.
    cbn [req_user_id req_direction req_amount Server.direction_text Server.int_of
         Server.int_raises].
    rewrite Hid.
    assert (Server.truthy_text (upper a0) = true) as ->.
    { unfold Server.truthy_text. by rewrite (proj2 (String.eqb_neq _ _) Ha0). }
    assert (Server.truthy (JStr a1) = true) as ->.
    { unfold Server.truthy, Server.truthy_text.
      by rewrite (proj2 (String.eqb_neq _ _) Ha1). }
    cbn [negb andb].
    destruct (parse_direction (upper a0)) as [dir|]; [|fields; by repeat split].
    destruct (py_int a1) as [amt|]; [|fields; by repeat split].
    unfold Config.MIN_BET_AMOUNT, Config.MAX_BET_AMOUNT.
    destruct (amt <? 1); [fields; by repeat split|].
    destruct (10000 <? amt); [fields; by repeat split|].
    unfold Bot.bet_transaction. rewrite ensure_user_open_market.
    destruct (Engine.get_open_market (ledger st)) as [market|] eqn:Hm.
    2:{ fields. repeat split; try done. intros k. rewrite ensure_user_balance.
        case_decide as Hk; [|done]. subst k. unfold balance. by rewrite Hrow. }
    unfold Server.check_user, Server.check_existing, Server.write_bet.
    rewrite Huid. cbv beta iota.
    rewrite ensure_user_lookup, decide_True by done. rewrite !Hrow.
    cbv beta iota. cbn [coins].
    change (bets (Bot.ensure_user user (ledger st))) with (bets (ledger st)).
    assert (∀ k, balance (Bot.ensure_user user (ledger st)) k = balance (ledger st) k)
      as Hsame.
    { intros k. rewrite ensure_user_balance. case_decide as Hk; [|done].
      subst k. unfold balance. by rewrite Hrow. }
    destruct (coins row <? amt); cbv beta iota; [fields; by repeat split|].
    destruct (has_unresolved_bet _ _ _); cbv beta iota; [fields; by repeat split|].
    cbv zeta. rewrite (references_ok_open _ _ _ _ Hm Hrow).
    destruct (insert_bet _ _ _ _ _) as [bs|].
    2:{ fields. by repeat split. }
    rewrite lookup_add_coins, decide_True, Hrow by done.
    cbn [fmap option_fmap option_map coins].
    fields. repeat split; try (done || (f_equal; lia)).
    intros k. unfold balance. fields. rewrite !lookup_add_coins.
    case_decide as Hk.
    + subst k. rewrite ensure_user_lookup, decide_True, Hrow by done.
      destruct row. reflexivity.
    + apply Hsame.
Qed.


End Front_ends.

(** C4, amended, at the fourth request. *)
Lemma rate_limit_checked_first_on_bot_witness :
  Bot.cmd_bet read_decimal alice ["up"; "60"] 3 busy_state =
  (Rejected RateLimited,
   mk_state (ledger busy_state)
     (RateLimiter.is_rate_limited 1 3 (rate_buckets busy_state)).2
     (api_requests busy_state)).
Proof.
  apply (proj1 (rate_limit_checked_first_on_bot read_decimal read_decimal)
           alice ["up"; "60"] 3%Q busy_state).
  vm_compute. reflexivity.
Defined.



(** ** The daily reward *)

(** C7 as stated, at a concrete event: the last-claim date equals today's, the
    event grants nothing, and yet the state has changed: the row carries the
    new name. *)
Lemma repeated_claim_changes_row :
  let res := Bot.on_reaction (Some (mk_reaction ["heart"] 5 (Some alice_renamed)))
               "2026-01-05" true claimed_demo in
  last_daily <$> users claimed_demo !! 1 = Some (Some "2026-01-05") ∧
  res.1 = AlreadyClaimed ∧
  users res.2 !! 1 = Some (mk_user "alice_b" 100 (Some "2026-01-05")) ∧
  res.2 ≠ claimed_demo.
Proof.
  cbv zeta. split; [vm_compute; reflexivity|]. split; [vm_compute; reflexivity|].
  assert (users (Bot.on_reaction (Some (mk_reaction ["heart"] 5 (Some alice_renamed)))
                   "2026-01-05" true claimed_demo).2 !! 1 =
          Some (mk_user "alice_b" 100 (Some "2026-01-05"))) as H
      by (vm_compute; reflexivity).
  split; [exact H|]. intros E. rewrite E in H. vm_compute in H. discriminate H.
Qed.

(** [ensure_user] changes nothing when the row is there under the same name. *)
Lemma ensure_user_same user d row :
  users d !! tg_id user = Some row → username row = Bot.display_name user →
  Bot.ensure_user user d = d.
Proof.
  intros Hrow Hname. destruct d as [us ms bs sn]. unfold Bot.ensure_user.
  simpl in *. unfold set_users. simpl. f_equal.
  unfold insert_or_ignore_user, set_username. rewrite Hrow.
  apply alter_id. intros u Hu. rewrite Hrow in Hu. injection Hu as <-.
  destruct row; simpl in *. by subst.
Qed.

(** C7, amended. For a claim event that passes the filters (a reaction is
    set, on the configured post if one is configured, by a user who is not a
    bot): if the user's last-claim date equals today's date, nothing is
    granted and no error is raised: no balance, claim date, bet, market or
    snapshot changes, only the stored display name is brought up to date, and
    the state is unchanged when the name already is; otherwise the balance
    grows by [DAILY_REWARD_AMOUNT] and the last-claim date becomes today,
    whether or not the notification is delivered.  The same event a second
    time on the same date grants nothing and leaves the state as the first
    left it. *)
Theorem daily_reward_once configured r user today send_ok d :
  new_reaction r ≠ [] →
  Bot.other_message configured (message_id r) = false →
  reaction_user r = Some user →
  is_bot user = false →
  let res := Bot.on_reaction_for configured (Some r) today send_ok d in
  let uid := tg_id user in
  (markets res.2 = markets d ∧ bets res.2 = bets d ∧
   weekly_coins_snapshot res.2 = weekly_coins_snapshot d ∧
   (∀ k, k ≠ uid → users res.2 !! k = users d !! k)) ∧
  (∀ row, users d !! uid = Some row → last_daily row = Some today →
     res.1 = AlreadyClaimed ∧
     users res.2 !! uid =
       Some (mk_user (Bot.display_name user) (coins row) (last_daily row)) ∧
     (username row = Bot.display_name user → res.2 = d)) ∧
  ((∀ row, users d !! uid = Some row → last_daily row ≠ Some today) →
     res.1 = Granted (default 0 (balance d uid) + Config.DAILY_REWARD_AMOUNT) send_ok ∧
     users res.2 !! uid =
       Some (mk_user (Bot.display_name user)
               (default 0 (balance d uid) + Config.DAILY_REWARD_AMOUNT) (Some today))) ∧
  (∀ send_ok', (Bot.on_reaction_for configured (Some r) today send_ok' d).2 = res.2) ∧
  (∀ send_ok', Bot.on_reaction_for configured (Some r) today send_ok' res.2 =
               (AlreadyClaimed, res.2)).
Proof.
  intros Hnew Hmsg Huser Hbot res uid.
  assert (Hunfold : ∀ ok d0,
    Bot.on_reaction_for configured (Some r) today ok d0 =
    match users (Bot.ensure_user user d0) !! uid with
    | Some row =>
        if decide (last_daily row = Some today)
        then (AlreadyClaimed, Bot.ensure_user user d0)
        else (Granted (coins row + Config.DAILY_REWARD_AMOUNT) ok,
              set_users
                (alter (λ u, mk_user (username u)
                               (coins u + Config.DAILY_REWARD_AMOUNT) (Some today))
                   uid (users (Bot.ensure_user user d0)))
                (Bot.ensure_user user d0))
    | None => (RewardRaised, d0)
    end).
  { intros ok d0. unfold Bot.on_reaction_for. rewrite Hmsg, Huser, Hbot.
    destruct (new_reaction r) as [|e es]; [done|].
    destruct (users (Bot.ensure_user user d0) !! tg_id user) as [row|] eqn:Hrow;
      fold uid in Hrow |- *; rewrite Hrow; [|done].
    case_decide; [done|]. by rewrite lookup_alter_eq, Hrow. }
  assert (Hrow1 : users (Bot.ensure_user user d) !! uid =
                  Some (match users d !! uid with
                        | Some u => mk_user (Bot.display_name user) (coins u) (last_daily u)
                        | None => mk_user (Bot.display_name user) 0 None
                        end)).
  { by rewrite ensure_user_lookup, decide_True. }
  unfold res. rewrite !Hunfold, Hrow1.
  split; [|split; [|split; [|split]]].
  - case_decide; fields; repeat split; try done.
    + intros k Hk. by rewrite ensure_user_lookup, decide_False.
    + intros k Hk. rewrite lookup_alter_ne by done.
      by rewrite ensure_user_lookup, decide_False.
  - intros row Hrow Hld. rewrite Hrow. cbn [last_daily].
    rewrite decide_True by done. fields. split; [done|]. split.
    + by rewrite Hrow1, Hrow.
    + intros Hname. by apply (ensure_user_same user d row).
  - intros Hnot. unfold balance.
    destruct (users d !! uid) as [row|] eqn:Hrow.
    + cbn [last_daily]. rewrite decide_False by (by apply Hnot).
      fields. split; [done|]. by rewrite lookup_alter_eq, Hrow1.
    + cbn [last_daily]. rewrite decide_False by done.
      fields. split; [done|]. by rewrite lookup_alter_eq, Hrow1.
  - intros send_ok'. rewrite Hunfold, Hrow1. by case_decide.
  - intros send_ok'.
    set (row1 := match users d !! uid with
                 | Some u => mk_user (Bot.display_name user) (coins u) (last_daily u)
                 | None => mk_user (Bot.display_name user) 0 None
                 end) in *.
    assert (username row1 = Bot.display_name user) as Hname1.
    { unfold row1. by destruct (users d !! uid). }
    destruct (decide (last_daily row1 = Some today)) as [Hld|Hld].
    + fields. rewrite Hunfold.
      rewrite (ensure_user_same user (Bot.ensure_user user d) row1 Hrow1 Hname1).
      rewrite Hrow1. by rewrite decide_True.
    + set (d2 := set_users _ _).
      assert (users d2 !! uid =
              Some (mk_user (Bot.display_name user)
                      (coins row1 + Config.DAILY_REWARD_AMOUNT) (Some today))) as Hrow2.
      { unfold d2. fields. rewrite lookup_alter_eq, Hrow1.
        cbn [fmap option_fmap option_map]. by rewrite Hname1. }
      fields. rewrite Hunfold.
      rewrite (ensure_user_same user d2 _ Hrow2 eq_refl).
      rewrite Hrow2. cbn [last_daily]. by rewrite decide_True.
Qed.

(** C7, amended, at Alice's first claim, repeated on the same date. *)
Lemma daily_reward_once_witness :
  let ev := Some (mk_reaction ["heart"] 5 (Some alice)) in
  let first := Bot.on_reaction ev "2026-01-05" false empty_db in
  first.1 = Granted 100 false ∧
  Bot.on_reaction ev "2026-01-05" true first.2 = (AlreadyClaimed, first.2).
Proof.
  cbv zeta.
  pose proof (daily_reward_once Config.DAILY_REWARD_MESSAGE_ID
                (mk_reaction ["heart"] 5 (Some alice)) alice "2026-01-05" false
                empty_db) as H.
  cbv zeta in H. destruct H as (_ & _ & _ & _ & Hidem); try reflexivity; [done|].
  split; [vm_compute; reflexivity|]. apply Hidem.
Defined.

(** ** The sliding window *)

Lemma kept_iff cutoff t : negb (Qle_bool t cutoff) = true ↔ (cutoff < t)%Q.
Proof.
  rewrite negb_true_iff. split.
  - intros H. apply Qnot_le_lt. intros Hle%Qle_bool_iff. congruence.
  - intros H. destruct (Qle_bool t cutoff) eqn:E; [|done].
    apply Qle_bool_iff in E. lra.
Qed.

Lemma In_prune cutoff bucket x :
  In x (RateLimiter.prune cutoff bucket) ↔ In x bucket ∧ (cutoff < x)%Q.
Proof. unfold RateLimiter.prune. by rewrite filter_In, kept_iff. Qed.

(** Pruning at a later cutoff makes an earlier pruning redundant. *)
Lemma prune_prune (c1 c2 : Q) bucket :
  (c1 <= c2)%Q →
  RateLimiter.prune c2 (RateLimiter.prune c1 bucket) = RateLimiter.prune c2 bucket.
Proof.
  intros Hle. unfold RateLimiter.prune. induction bucket as [|x l IH]; [done|]. simpl.
  destruct (negb (Qle_bool x c1)) eqn:E1; simpl; rewrite IH; [done|].
  destruct (negb (Qle_bool x c2)) eqn:E2; [|done].
  apply kept_iff in E2. apply negb_false_iff, Qle_bool_iff in E1. lra.
Qed.

Lemma prune_app cutoff l1 l2 :
  RateLimiter.prune cutoff (l1 ++ l2) =
  RateLimiter.prune cutoff l1 ++ RateLimiter.prune cutoff l2.
Proof. apply List.filter_app. Qed.

Lemma prune_drops cutoff bucket x :
  In x bucket → (x <= cutoff)%Q →
  (length (RateLimiter.prune cutoff bucket) < length bucket)%nat.
Proof.
  intros Hin Hx. unfold RateLimiter.prune. induction bucket as [|y l IH]; [done|].
  simpl. pose proof (filter_length_le (λ t, negb (Qle_bool t cutoff)) l).
  destruct Hin as [->|Hin].
  - rewrite (proj2 (Qle_bool_iff x cutoff) Hx). simpl. lia.
  - specialize (IH Hin). destruct (negb (Qle_bool y cutoff)); simpl; lia.
Qed.

(** One attempt, read off the definition. *)
Lemma is_rate_limited_spec uid now rb :
  let pruned := RateLimiter.prune (now - Config.BET_RATE_LIMIT_WINDOW)%Q (bucket_of uid rb) in
  RateLimiter.is_rate_limited uid now rb =
  if (Config.BET_RATE_LIMIT_COUNT <=? length pruned)%nat
  then (true, <[uid := pruned]> rb)
  else (false, <[uid := pruned ++ [now]]> rb).
Proof. done. Qed.

Lemma bucket_after uid now rb :
  bucket_of uid (RateLimiter.is_rate_limited uid now rb).2 =
  RateLimiter.prune (now - Config.BET_RATE_LIMIT_WINDOW)%Q (bucket_of uid rb) ++
  (if (RateLimiter.is_rate_limited uid now rb).1 then [] else [now]).
Proof.
  rewrite is_rate_limited_spec. cbv zeta. unfold bucket_of at 1 2.
  destruct (_ <=? _)%nat; simpl; rewrite lookup_insert_eq; simpl;
    [by rewrite app_nil_r|done].
Qed.

Lemma buckets_ok_is_rate_limited uid now rb :
  buckets_ok rb → buckets_ok (RateLimiter.is_rate_limited uid now rb).2.
Proof.
  intros Hok k b. rewrite is_rate_limited_spec. cbv zeta.
  destruct (_ <=? _)%nat eqn:E; simpl; rewrite lookup_insert; case_decide;
    try apply Hok.
  - intros [= <-]. unfold bucket_of.
    destruct (rb !! uid) as [b0|] eqn:Hb; simpl.
    + pose proof (filter_length_le
                    (λ t, negb (Qle_bool t (now - Config.BET_RATE_LIMIT_WINDOW))) b0).
      specialize (Hok _ _ Hb). unfold RateLimiter.prune. lia.
    + unfold Config.BET_RATE_LIMIT_COUNT. lia.
  - intros [= <-]. rewrite length_app. simpl.
    apply Nat.leb_gt in E. lia.
Qed.

(** After admitted attempts at times that all lie in the window that ends
    at [t], the part of the bucket that survives pruning at [t] has grown by
    one entry per attempt. *)
Lemma attempts_fill uid ts t rb :
  Forall (λ a, a = false) (attempts uid ts rb).1 →
  (∀ ti, In ti ts → (ti <= t)%Q ∧ (t - Config.BET_RATE_LIMIT_WINDOW < ti)%Q) →
  (length (RateLimiter.prune (t - Config.BET_RATE_LIMIT_WINDOW)%Q (bucket_of uid rb)) +
   length ts ≤
   length (RateLimiter.prune (t - Config.BET_RATE_LIMIT_WINDOW)%Q
             (bucket_of uid (attempts uid ts rb).2)))%nat.
Proof.
  revert rb. induction ts as [|t1 ts IH]; intros rb Hadm Hwin; [simpl; lia|].
  simpl in Hadm |- *.
  pose proof (bucket_after uid t1 rb) as Hb.
  destruct (RateLimiter.is_rate_limited uid t1 rb) as [lim rb1].
  destruct (attempts uid ts rb1) as [answers rb2] eqn:Hrest.
  simpl in Hadm, Hb |- *. apply Forall_cons in Hadm as [-> Hadm].
  specialize (IH rb1). rewrite Hrest in IH. simpl in IH.
  specialize (IH Hadm (λ ti Hi, Hwin ti (or_intror Hi))).
  destruct (Hwin t1 (or_introl eq_refl)) as [Hle Hgt].
  rewrite Hb, prune_app, prune_prune, length_app in IH
    by (unfold Config.BET_RATE_LIMIT_WINDOW; lra).
  assert (RateLimiter.prune (t - Config.BET_RATE_LIMIT_WINDOW)%Q [t1] = [t1]) as E.
  { unfold RateLimiter.prune. simpl. by rewrite (proj2 (kept_iff _ _) Hgt). }
  rewrite E in IH. simpl in IH. lia.
Qed.

Section Limiter.

Variable py_int : string → option Z.
Variable sql_integer : string → option Z.

Lemma buckets_ok_step s e :
  buckets_ok (rate_buckets s) → buckets_ok (rate_buckets (step py_int sql_integer s e)).
Proof.
  intros Hok. destruct e; try done.
  - cbn [step]. rewrite (proj1 (cmd_bet_effect py_int user args now s)).
    by apply buckets_ok_is_rate_limited.
  - by rewrite (proj2 (step_api_begin py_int sql_integer s request body)).
  - by rewrite (proj2 (step_api_next py_int sql_integer s request)).
Qed.

Lemma buckets_ok_run es s :
  buckets_ok (rate_buckets s) → buckets_ok (rate_buckets (run py_int sql_integer es s)).
Proof.
  revert s. induction es as [|e es IH]; intros s Hok; [done|].
  simpl. by apply IH, buckets_ok_step.
Qed.

(** C8. The rate limiter, per user, with N = [BET_RATE_LIMIT_COUNT] = 3 and
    W = [BET_RATE_LIMIT_WINDOW] = 60 seconds: an attempt made within W
    seconds of N attempts that were admitted is rejected; an attempt made
    once W seconds have passed since a recorded attempt (so since the oldest
    one) is admitted, as no bucket ever holds more than N timestamps; each
    attempt leaves in the bucket only timestamps newer than its time minus
    W, so all older ones are pruned; and the attempt's own time is recorded
    exactly when it is admitted.  Other users' buckets are not touched. *)
Theorem sliding_window_limiter :
  (∀ uid ts t rb,
     length ts = Config.BET_RATE_LIMIT_COUNT →
     Forall (λ a, a = false) (attempts uid ts rb).1 →
     (∀ ti, In ti ts → (ti <= t)%Q ∧ (t - Config.BET_RATE_LIMIT_WINDOW < ti)%Q) →
     (RateLimiter.is_rate_limited uid t (attempts uid ts rb).2).1 = true) ∧
  (∀ uid t rb t0,
     buckets_ok rb →
     In t0 (bucket_of uid rb) →
     (t0 + Config.BET_RATE_LIMIT_WINDOW <= t)%Q →
     (RateLimiter.is_rate_limited uid t rb).1 = false) ∧
  (buckets_ok ∅ ∧
   (∀ uid t rb, buckets_ok rb → buckets_ok (RateLimiter.is_rate_limited uid t rb).2) ∧
   (∀ es, buckets_ok (rate_buckets (run py_int sql_integer es initial_state)))) ∧
  (∀ uid t rb x,
     In x (bucket_of uid (RateLimiter.is_rate_limited uid t rb).2) ↔
     (In x (bucket_of uid rb) ∧ (t - Config.BET_RATE_LIMIT_WINDOW < x)%Q) ∨
     (x = t ∧ (RateLimiter.is_rate_limited uid t rb).1 = false)) ∧
  (∀ uid t rb,
     bucket_of uid (RateLimiter.is_rate_limited uid t rb).2 =
     RateLimiter.prune (t - Config.BET_RATE_LIMIT_WINDOW)%Q (bucket_of uid rb) ++
     (if (RateLimiter.is_rate_limited uid t rb).1 then [] else [t])) ∧
  (∀ uid t rb k, k ≠ uid →
     (RateLimiter.is_rate_limited uid t rb).2 !! k = rb !! k).
Proof.
  split; [|split; [|split; [|split; [|split]]]].
  - intros uid ts t rb Hlen Hadm Hwin.
    pose proof (attempts_fill uid ts t rb Hadm Hwin) as Hfill.
    rewrite is_rate_limited_spec. cbv zeta.
    destruct (_ <=? _)%nat eqn:E; [done|]. apply Nat.leb_gt in E. lia.
  - intros uid t rb t0 Hok Hin Hold.
    rewrite is_rate_limited_spec. cbv zeta.
    destruct (_ <=? _)%nat eqn:E; [|done]. apply Nat.leb_le in E.
    assert (length (bucket_of uid rb) ≤ Config.BET_RATE_LIMIT_COUNT)%nat as Hlen.
    { unfold bucket_of in *. destruct (rb !! uid) as [b|] eqn:Hb; [|done].
      by apply (Hok uid). }
    pose proof (prune_drops (t - Config.BET_RATE_LIMIT_WINDOW)%Q _ t0 Hin) as Hd.
    assert (t0 <= t - Config.BET_RATE_LIMIT_WINDOW)%Q as Hle by lra.
    specialize (Hd Hle). lia.
  - split; [intros k b; by rewrite lookup_empty|]. split.
    + apply buckets_ok_is_rate_limited.
    + intros es. apply buckets_ok_run. intros k b. simpl. by rewrite lookup_empty.
  - intros uid t rb x. rewrite bucket_after, in_app_iff, In_prune.
    destruct (RateLimiter.is_rate_limited uid t rb).1; simpl; intuition congruence.
  - apply bucket_after.
  - intros uid t rb k Hk. rewrite is_rate_limited_spec. cbv zeta.
    destruct (_ <=? _)%nat; simpl; by rewrite lookup_insert_ne.
Qed.

End Limiter.

(** C8 at attempts at 0, 10 and 20 seconds: a fourth at 59 is rejected, one
    at 60 admitted. *)
Lemma sliding_window_limiter_witness :
  (attempts 1 [0; 10; 20]%Q ∅).1 = [false; false; false] ∧
  (RateLimiter.is_rate_limited 1 59 (attempts 1 [0; 10; 20]%Q ∅).2).1 = true ∧
  (RateLimiter.is_rate_limited 1 60 (attempts 1 [0; 10; 20]%Q ∅).2).1 = false.
Proof.
  split; [vm_compute; reflexivity|]. split.
  - apply (proj1 (sliding_window_limiter read_decimal read_decimal) 1 [0; 10; 20]%Q 59%Q ∅).
    + reflexivity.
    + vm_compute. repeat constructor.
    + unfold Config.BET_RATE_LIMIT_WINDOW.
      intros ti [<-|[<-|[<-|[]]]]; split; unfold Qle, Qlt; simpl; lia.
  - apply (proj1 (proj2 (sliding_window_limiter read_decimal read_decimal)) 1 60%Q _ 0%Q).
    + change (buckets_ok
                (RateLimiter.is_rate_limited 1 20
                   (RateLimiter.is_rate_limited 1 10
                      (RateLimiter.is_rate_limited 1 0 ∅).2).2).2).
      do 3 apply buckets_ok_is_rate_limited.
      intros k b. by rewrite lookup_empty.
    + vm_compute. auto.
    + unfold Config.BET_RATE_LIMIT_WINDOW, Qle. simpl. lia.
Defined.

(** ** Weekly gain *)

(** A row of the leaderboard is the row of a user, with that user's gain. *)
Lemma In_leaderboard_query week d row :
  In row (leaderboard_query week d) →
  ∃ u, users d !! board_id row = Some u ∧
       row = mk_board (board_id row) (username u) (coins u)
               (weekly_gain week d (board_id row) u).
Proof.
  unfold leaderboard_query. intros Hin%list_elem_of_In.
  apply elem_of_take in Hin as (i & Hi & _).
  apply list_elem_of_lookup_2 in Hi.
  rewrite merge_sort_Permutation in Hi.
  apply list_elem_of_In, in_map_iff in Hi as ([uid u] & <- & Hu).
  apply list_elem_of_In, elem_of_map_to_list in Hu.
  exists u. by split.
Qed.

Lemma leaderboard_query_length week d : (length (leaderboard_query week d) ≤ 10)%nat.
Proof. unfold leaderboard_query. rewrite length_take. lia. Qed.

Lemma refresh_snapshot_lookup week d uid :
  weekly_coins_snapshot (Bot.refresh_weekly_snapshot week d) !! uid =
  (λ u, mk_snapshot (coins u) week) <$> users d !! uid.
Proof. unfold Bot.refresh_weekly_snapshot. simpl. apply lookup_fmap. Qed.

Lemma weekly_gain_refreshed week d uid u :
  users d !! uid = Some u →
  weekly_gain week (Bot.refresh_weekly_snapshot week d) uid u = 0.
Proof.
  intros Hu. unfold weekly_gain, snapshot_balance.
  rewrite refresh_snapshot_lookup, Hu. simpl. rewrite String.eqb_refl. lia.
Qed.

(** C9. The weekly gain the leaderboard (and the API's user route) reports
    for a user is the current balance minus the snapshot balance for the
    current week start, the snapshot balance being 0 when the user has no
    snapshot row for that week.  A weekly rollover replaces the whole
    snapshot table by every user's current balance tagged with the new week
    start, and right after it the weekly gain of every user is 0. *)
Theorem weekly_gain_after_rollover :
  (∀ week d row,
     In row (Bot.cmd_leaderboard week d) →
     ∃ u, users d !! board_id row = Some u ∧
          board_coins row = coins u ∧
          board_gain row =
            coins u -
            match weekly_coins_snapshot d !! board_id row with
            | Some s => if String.eqb (week_start_of s) week
                        then coins_at_week_start s else 0
            | None => 0
            end) ∧
  (∀ week d uid u,
     (∀ s, weekly_coins_snapshot d !! uid = Some s → week_start_of s ≠ week) →
     weekly_gain week d uid u = coins u) ∧
  (∀ sql_integer tg name week d u gain rank d',
     Server.upsert_user sql_integer tg name week d = (Answered u gain rank, d') →
     ∃ uid, Server.bind sql_integer tg = Integer uid ∧ users d' !! uid = Some u ∧
            gain = coins u - snapshot_balance week d' uid) ∧
  (∀ week d,
     users (Bot.refresh_weekly_snapshot week d) = users d ∧
     ∀ uid, weekly_coins_snapshot (Bot.refresh_weekly_snapshot week d) !! uid =
            (λ u, mk_snapshot (coins u) week) <$> users d !! uid) ∧
  (∀ week d uid u,
     users d !! uid = Some u →
     weekly_gain week (Bot.refresh_weekly_snapshot week d) uid u = 0) ∧
  (∀ week d row,
     In row (Bot.cmd_leaderboard week (Bot.refresh_weekly_snapshot week d)) →
     board_gain row = 0).
Proof.
  split; [|split; [|split; [|split; [|split]]]].
  - intros week d row (u & Hu & Hrow)%In_leaderboard_query.
    exists u. split; [done|]. rewrite Hrow. done.
  - intros week d uid u Hnone. unfold weekly_gain, snapshot_balance.
    destruct (weekly_coins_snapshot d !! uid) as [s|] eqn:Hs; [|lia].
    rewrite (proj2 (String.eqb_neq _ _) (Hnone s eq_refl)). lia.
  - intros sql_integer tg name week d u gain rank d'. unfold Server.upsert_user.
    destruct (negb (Server.truthy tg)); [discriminate|].
    destruct (Server.bind sql_integer tg) as [| |uid]; [discriminate..|].
    set (d1 := set_users _ d).
    destruct (users d1 !! uid) as [u0|] eqn:Hu; [|discriminate].
    intros [= <- <- <- <-]. exists uid. by repeat split.
  - intros week d. split; [done|]. intros uid. apply refresh_snapshot_lookup.
  - apply weekly_gain_refreshed.
  - intros week d row (u & Hu & Hrow)%In_leaderboard_query.
    rewrite Hrow. simpl. by apply weekly_gain_refreshed.
Qed.

(** C9 at the ledger the worked session leaves. *)
Lemma weekly_gain_after_rollover_witness :
  let d := ledger (run read_decimal read_decimal session initial_state) in
  map board_gain (Bot.cmd_leaderboard "2026-01-05" d) = [200; 50] ∧
  weekly_gain "2026-01-12" (Bot.refresh_weekly_snapshot "2026-01-12" d) 1
    (mk_user "alice" 200 (Some "2026-01-05")) = 0.
Proof.
  cbv zeta. split; [vm_compute; reflexivity|].
  apply (proj1 (proj2 (proj2 (proj2 (proj2 weekly_gain_after_rollover))))).
  vm_compute. reflexivity.
Defined.

(** * Further properties *)

(** ** The handlers do not raise *)




Section Never_raise.

Variable py_int : string → option Z.
Variable sql_integer : string → option Z.





End Never_raise.


(** ** One bet per user between two settlements *)








Section One_bet.

Variable py_int : string → option Z.
Variable sql_integer : string → option Z.







End One_bet.


(** ** What is settled stays settled *)

Lemma NoDup_key_eq {A} (f : A → Z) (l : list A) a b :
  NoDup (map f l) → In a l → In b l → f a = f b → a = b.
Proof.
  induction l as [|x l IH]; [done|]. simpl. intros [Hx Hl]%NoDup_cons.
  intros [->|Ha] [->|Hb] Hf; try done.
  - exfalso. apply Hx. rewrite Hf. by apply list_elem_of_In, in_map.
  - exfalso. apply Hx. rewrite <- Hf. by apply list_elem_of_In, in_map.
  - by apply IH.
Qed.

Lemma ids_unique_frame d d' : markets d' = markets d → ids_unique d → ids_unique d'.
Proof. unfold ids_unique. by intros ->. Qed.

Lemma ids_unique_open_new_market price now d :
  ids_unique d → ids_unique (Engine.open_new_market price now d).
Proof.
  unfold ids_unique. destruct price as [p|]; [|done]. simpl. intros Hd.
  rewrite map_app. simpl. apply NoDup_app. split; [done|].
  split; [|apply NoDup_singleton].
  intros x Hx%list_elem_of_In ->%list_elem_of_singleton.
  pose proof (next_id_above _ _ Hx). lia.
Qed.

Lemma ids_unique_resolve_market close_p now next_p now' d :
  ids_unique d → ids_unique (Engine.resolve_market close_p now next_p now' d).
Proof.
  intros Hd. destruct close_p as [c|]; [|done].
  destruct (Engine.get_open_market d) as [market|] eqn:Hm.
  - rewrite (resolve_market_open _ _ _ _ _ _ Hm).
    apply ids_unique_open_new_market. unfold ids_unique. simpl.
    by rewrite close_market_ids.
  - unfold Engine.resolve_market. rewrite Hm. by apply ids_unique_open_new_market.
Qed.

Lemma In_open_new_market_keeps price now d m :
  In m (markets d) → In m (markets (Engine.open_new_market price now d)).
Proof. destruct price; [|done]. simpl. intros. apply in_or_app. by left. Qed.

Lemma closed_kept_resolve_market close_p now next_p now' d m :
  ids_unique d → In m (markets d) → status m = CLOSED →
  In m (markets (Engine.resolve_market close_p now next_p now' d)).
Proof.
  intros Hd Hin Hst. destruct close_p as [c|]; [|done].
  destruct (Engine.get_open_market d) as [market|] eqn:Hm.
  - rewrite (resolve_market_open _ _ _ _ _ _ Hm).
    apply In_open_new_market_keeps. simpl.
    destruct (get_open_market_In _ _ Hm) as [Hmk Hopen].
    unfold Engine.close_market. apply in_map_iff. exists m. split; [|done].
    destruct (Z.eqb_spec (market_id_of m) (market_id_of market)) as [E|E]; [|done].
    pose proof (NoDup_key_eq market_id_of _ _ _ Hd Hin Hmk E). congruence.
  - unfold Engine.resolve_market. rewrite Hm. by apply In_open_new_market_keeps.
Qed.

Lemma resolved_kept_mark_resolved mid bs b :
  In b bs → resolved b = true → In b (Engine.mark_resolved mid bs).
Proof.
  intros Hin Hr. unfold Engine.mark_resolved. apply in_map_iff. exists b.
  split; [|done]. destruct (bet_market b =? mid); [|done].
  destruct b. simpl in *. by subst.
Qed.

Lemma resolved_kept_resolve_market close_p now next_p now' d b :
  In b (bets d) → resolved b = true →
  In b (bets (Engine.resolve_market close_p now next_p now' d)).
Proof.
  intros Hin Hr. destruct close_p as [c|]; [|done].
  destruct (Engine.get_open_market d) as [market|] eqn:Hm.
  - rewrite (resolve_market_open _ _ _ _ _ _ Hm), open_new_market_bets. simpl.
    by apply resolved_kept_mark_resolved.
  - unfold Engine.resolve_market. by rewrite Hm, open_new_market_bets.
Qed.

Lemma bet_effect_bets_kept uid dir amt d0 d1 o d' b :
  bet_effect uid dir amt d0 d1 o d' → bets d1 = bets d0 →
  In b (bets d0) → In b (bets d').
Proof.
  intros [| |market row Hm Hrow Hle Hdup Hfresh] Hb Hin; [done|by rewrite Hb|].
  simpl. rewrite Hb. apply in_or_app. by left.
Qed.

Section Final.

Variable py_int : string → option Z.
Variable sql_integer : string → option Z.

Lemma bets_kept_bet_steps s e b :
  is_resolve e = false →
  In b (bets (ledger s)) → In b (bets (ledger (step py_int sql_integer s e))).
Proof.
  intros He Hin. destruct e; try discriminate He;
    [cbn [step]; fields; unfold Bot.on_reaction; try done..| |].
  - unfold Engine.startup. destruct (Engine.get_open_market _); [done|].
    by rewrite open_new_market_bets.
  - destruct (cmd_bet_effect py_int user args now s)
      as [_ [(r & _ & -> & _)|(dir & amt & _ & _ & _ & ->)]]; [done|].
    by eapply bet_effect_bets_kept; [apply bet_transaction_effect|..].
  - by rewrite (proj1 (proj2 (on_reaction_markets _ _ _ _ _))).
  - by rewrite (proj1 (proj2 (upsert_user_markets _ _ _ _ _))).
  - destruct (place_bet_effect py_int sql_integer body (ledger s))
      as [(? & ? & ? & _ & _ & _ & Hb)|(o & -> & _)]; [|done].
    by eapply bet_effect_bets_kept; [apply Hb|..].
  - by rewrite (proj1 (step_api_begin py_int sql_integer s request body)).
  - destruct (proj1 (step_api_next py_int sql_integer s request)) as [->|Hlate]; [done|].
    apply late_write_frame in Hlate as (_ & _ & (b0 & -> & _) & _).
    apply in_or_app. by left.
Qed.

Lemma final_step s e :
  ids_unique (ledger s) →
  ids_unique (ledger (step py_int sql_integer s e)) ∧
  (∀ m, In m (markets (ledger s)) → status m = CLOSED →
        In m (markets (ledger (step py_int sql_integer s e)))) ∧
  (∀ b, In b (bets (ledger s)) → resolved b = true →
        In b (bets (ledger (step py_int sql_integer s e)))).
Proof.
  intros Hd. destruct (is_resolve e) eqn:He.
  - destruct e; try discriminate He. cbn [step]. fields. split; [|split].
    + by apply ids_unique_resolve_market.
    + intros m. by apply closed_kept_resolve_market.
    + intros b. by apply resolved_kept_resolve_market.
  - assert (markets (ledger (step py_int sql_integer s e)) = markets (ledger s) ∨
            ∃ price now, ledger (step py_int sql_integer s e) =
                         Engine.open_new_market price now (ledger s)) as Hms.
    { destruct e; try discriminate He;
        [cbn [step]; fields; unfold Bot.on_reaction; try (by left)..| |].
      - unfold Engine.startup. destruct (Engine.get_open_market _); [by left|].
        right. by exists price, now.
      - left. apply cmd_bet_markets.
      - left. apply on_reaction_markets.
      - left. apply upsert_user_markets.
      - left. apply place_bet_markets.
      - left. by rewrite (proj1 (step_api_begin py_int sql_integer s request body)).
      - left.
        destruct (proj1 (step_api_next py_int sql_integer s request)) as [->|Hlate];
          [done|].
        by apply late_write_frame in Hlate as (-> & _). }
    split; [|split].
    + destruct Hms as [Hms|(price & now & ->)];
        [by apply (ids_unique_frame _ _ Hms)|by apply ids_unique_open_new_market].
    + intros m Hin _. destruct Hms as [->|(price & now & ->)]; [done|].
      by apply In_open_new_market_keeps.
    + intros b Hin _. by apply bets_kept_bet_steps.
Qed.

(** X3. What is settled stays settled.  Started from a ledger whose market
    ids are distinct (the empty one, say), every run keeps them distinct, a
    market that is CLOSED stays in the table exactly as it is, with its close
    price and time, and a bet that is resolved stays exactly as it is: no
    later settlement, bet or reward touches either. *)
Theorem settled_is_final es s :
  ids_unique (ledger s) →
  let s' := run py_int sql_integer es s in
  ids_unique (ledger s') ∧
  (∀ m, In m (markets (ledger s)) → status m = CLOSED → In m (markets (ledger s'))) ∧
  (∀ b, In b (bets (ledger s)) → resolved b = true → In b (bets (ledger s'))).
Proof.
  revert s. induction es as [|e es IH]; intros s Hd; [done|].
  destruct (final_step s e Hd) as (Hd' & Hm & Hb).
  specialize (IH (step py_int sql_integer s e) Hd'). cbv zeta in IH |- *. simpl.
  destruct IH as (IH1 & IH2 & IH3). split; [done|]. split.
  - intros m Hin Hst. apply IH2; [|done]. by apply Hm.
  - intros b Hin Hr. apply IH3; [|done]. by apply Hb.
Qed.

End Final.

(** X3 at the worked session, followed by a bet of Bob on the new market and
    a second settlement: the first market's row is as the first settlement
    left it. *)
Lemma settled_is_final_witness :
  let s := run read_decimal read_decimal session initial_state in
  let s' := run read_decimal read_decimal
              [EvBet bob ["up"; "20"] 400;
               EvResolve (Some 50100%float) 600 (Some 50100%float) 600] s in
  ids_unique (ledger s') ∧
  In (mk_market 1 50000%float (Some 50500%float) 0 (Some 300%Q) CLOSED)
    (markets (ledger s')).
Proof.
  intros s s'.
  assert (ids_unique (ledger s)) as Hs.
  { exact (proj1 (settled_is_final read_decimal read_decimal session initial_state
                    (NoDup_nil_2 : ids_unique (ledger initial_state)))). }
  destruct (settled_is_final read_decimal read_decimal
              [EvBet bob ["up"; "20"] 400;
               EvResolve (Some 50100%float) 600 (Some 50100%float) 600] s Hs)
    as (H1 & H2 & _).
  split; [exact H1|]. apply H2; [|reflexivity].
  vm_compute. left. reflexivity.
Defined.

(** ** The daily reward over a whole run *)

Lemma claim_dates_kept_refl d : claim_dates_kept d d.
Proof. intros uid row H. by exists row. Qed.

Lemma claim_dates_kept_trans d1 d2 d3 :
  claim_dates_kept d1 d2 → claim_dates_kept d2 d3 → claim_dates_kept d1 d3.
Proof.
  intros H12 H23 uid row H. destruct (H12 _ _ H) as (row2 & H2 & E2).
  destruct (H23 _ _ H2) as (row3 & H3 & E3). exists row3. split; [done|congruence].
Qed.

Lemma claim_dates_kept_frame d d' : users d' = users d → claim_dates_kept d d'.
Proof. intros E uid row H. exists row. by rewrite E. Qed.

Lemma claim_dates_kept_ensure_user user d : claim_dates_kept d (Bot.ensure_user user d).
Proof.
  intros uid row H. rewrite ensure_user_lookup, H. case_decide; by eexists.
Qed.

Lemma claim_dates_kept_add_coins x k d d' :
  users d' = add_coins x k (users d) → claim_dates_kept d d'.
Proof.
  intros E uid row H. rewrite E, lookup_add_coins, H. case_decide; by eexists.
Qed.

Lemma claim_dates_kept_bet_effect uid dir amt d0 d1 o d' :
  bet_effect uid dir amt d0 d1 o d' → claim_dates_kept d0 d1 → claim_dates_kept d0 d'.
Proof.
  intros [| |market row Hm Hrow Hle Hdup Hfresh] H01;
    [apply claim_dates_kept_refl|done|].
  eapply claim_dates_kept_trans; [done|]. by eapply claim_dates_kept_add_coins.
Qed.

Lemma claim_dates_kept_resolve_market close_p now next_p now' d :
  claim_dates_kept d (Engine.resolve_market close_p now next_p now' d).
Proof.
  destruct close_p as [c|]; [|apply claim_dates_kept_refl].
  destruct (Engine.get_open_market d) as [market|] eqn:Hm.
  - rewrite (resolve_market_open _ _ _ _ _ _ Hm). intros uid row H.
    rewrite open_new_market_users. simpl. rewrite settled_users_lookup, H.
    by eexists.
  - unfold Engine.resolve_market. rewrite Hm. apply claim_dates_kept_frame.
    apply open_new_market_users.
Qed.

(** A reaction event and the claim date of [uid]: the date is kept or set to
    the event's, and a grant to [uid] finds another date and sets the
    event's. *)
Lemma on_reaction_claim configured reaction today send_ok d uid :
  let res := Bot.on_reaction_for configured reaction today send_ok d in
  (∀ row, users d !! uid = Some row →
     ∃ row', users res.2 !! uid = Some row' ∧
             (last_daily row' = last_daily row ∨ last_daily row' = Some today)) ∧
  (∀ r u nb n, reaction = Some r → reaction_user r = Some u → tg_id u = uid →
     res.1 = Granted nb n →
     (∀ row, users d !! uid = Some row → last_daily row ≠ Some today) ∧
     ∃ row', users res.2 !! uid = Some row' ∧ last_daily row' = Some today).
Proof.
  cbv zeta.
  destruct (on_reaction_for_effect configured reaction today send_ok d)
    as [->|[->|(r & user & row0 & -> & _ & _ & Hu & _ & Hrow0 & [[Hld ->]|[Hld ->]])]];
    cbn [fst snd].
  - split; [intros row H; exists row; auto|]. intros; discriminate.
  - split; [intros row H; exists row; auto|]. intros; discriminate.
  - split; [|intros; discriminate].
    intros row H. destruct (claim_dates_kept_ensure_user user d _ _ H) as (row' & H' & E).
    exists row'. auto.
  - rewrite ensure_user_lookup, decide_True in Hrow0 by done.
    split.
    + intros row H. fields. rewrite lookup_alter. case_decide as Hk.
      * subst uid. rewrite ensure_user_lookup, decide_True by done. simpl.
        eexists. split; [done|]. by right.
      * destruct (claim_dates_kept_ensure_user user d _ _ H) as (row' & H' & E).
        exists row'. auto.
    + intros r' u nb n [= <-] Hu' Hid _. rewrite Hu in Hu'. injection Hu' as <-.
      subst uid. split.
      * intros row H. rewrite H in Hrow0. injection Hrow0 as <-. done.
      * fields. rewrite lookup_alter_eq, ensure_user_lookup, decide_True by done.
        simpl. by eexists.
Qed.

Lemma grants_to_le uid e s : (grants_to uid e s ≤ 1)%nat.
Proof.
  unfold grants_to. repeat case_match; lia.
Qed.

Section Reward_runs.

Variable py_int : string → option Z.
Variable sql_integer : string → option Z.

Lemma claim_dates_kept_step s e :
  reaction_date e = None → claim_dates_kept (ledger s) (ledger (step py_int sql_integer s e)).
Proof.
  intros He. destruct e; try discriminate He; [cbn [step]; fields..| |].
  - unfold Engine.startup. destruct (Engine.get_open_market _);
      [apply claim_dates_kept_refl|].
    apply claim_dates_kept_frame, open_new_market_users.
  - apply claim_dates_kept_resolve_market.
  - by apply claim_dates_kept_frame.
  - apply claim_dates_kept_ensure_user.
  - apply claim_dates_kept_ensure_user.
  - destruct (cmd_bet_effect py_int user args now s)
      as [_ [(r & _ & -> & _)|(dir & amt & _ & _ & _ & ->)]];
      [apply claim_dates_kept_refl|].
    eapply claim_dates_kept_bet_effect; [apply bet_transaction_effect|].
    apply claim_dates_kept_ensure_user.
  - destruct (upsert_user_effect sql_integer tg name week (ledger s)) as [->|(uid & _ & _ & ->)];
      [apply claim_dates_kept_refl|].
    rewrite upsert_as_ensure_user. apply claim_dates_kept_ensure_user.
  - destruct (place_bet_effect py_int sql_integer body (ledger s))
      as [(? & ? & ? & _ & _ & _ & Hb)|(o & -> & _)]; [|apply claim_dates_kept_refl].
    eapply claim_dates_kept_bet_effect; [apply Hb|apply claim_dates_kept_refl].
  - rewrite (proj1 (step_api_begin py_int sql_integer s request body)).
    apply claim_dates_kept_refl.
  - destruct (proj1 (step_api_next py_int sql_integer s request)) as [->|Hlate];
      [apply claim_dates_kept_refl|].
    apply late_write_frame in Hlate as (_ & _ & _ & Hrows).
    intros uid row Hrow. destruct (Hrows uid row Hrow) as (row' & Hrow' & _ & Hld).
    by exists row'.
Qed.

Lemma claimed_step uid today s e :
  (∀ t, reaction_date e = Some t → t = today) →
  claimed uid today (ledger s) →
  claimed uid today (ledger (step py_int sql_integer s e)) ∧ grants_to uid e s = 0%nat.
Proof.
  intros Hdate (row & Hrow & Hld).
  destruct (reaction_date e) as [t|] eqn:He.
  - specialize (Hdate t eq_refl). subst t.
    destruct e as [| | | | | |reaction today' send_ok| | | |]; try discriminate He.
    injection He as ->. cbn [step]. fields.
    destruct (on_reaction_claim Config.DAILY_REWARD_MESSAGE_ID reaction today send_ok
                (ledger s) uid) as [Hkeep Hgrant].
    split.
    + destruct (Hkeep _ Hrow) as (row' & Hrow' & [E|E]); exists row';
        (split; [done|congruence]).
    + destruct reaction as [r|]; [|done]. cbn [grants_to].
      destruct (Bot.on_reaction (Some r) today send_ok (ledger s)).1 eqn:Hres; try done.
      destruct (reaction_user r) as [u|] eqn:Hu; [|done].
      destruct (Z.eqb_spec (tg_id u) uid) as [Hid|]; [|done].
      destruct (Hgrant r u _ _ eq_refl Hu Hid Hres) as [Hno _].
      by destruct (Hno _ Hrow).
  - split.
    + destruct (claim_dates_kept_step s e He _ _ Hrow) as (row' & Hrow' & E).
      exists row'. split; [done|congruence].
    + by destruct e.
Qed.

Lemma grant_claims uid today s e :
  reaction_date e = Some today → grants_to uid e s ≠ 0%nat →
  claimed uid today (ledger (step py_int sql_integer s e)).
Proof.
  intros He Hg.
  destruct e as [| | | | | |reaction today' send_ok| | | |]; try discriminate He.
  injection He as ->. destruct reaction as [r|]; [|done]. cbn [grants_to] in Hg.
  cbn [step]. fields.
  destruct (Bot.on_reaction (Some r) today send_ok (ledger s)).1 eqn:Hres; try done.
  destruct (reaction_user r) as [u|] eqn:Hu; [|done].
  destruct (Z.eqb_spec (tg_id u) uid) as [Hid|]; [|done].
  destruct (on_reaction_claim Config.DAILY_REWARD_MESSAGE_ID (Some r) today send_ok
              (ledger s) uid) as [_ Hgrant].
  by destruct (Hgrant r u _ _ eq_refl Hu Hid Hres) as [_ ?].
Qed.

Lemma claimed_run uid today es s :
  Forall (λ e, ∀ t, reaction_date e = Some t → t = today) es →
  claimed uid today (ledger s) →
  claimed uid today (ledger (run py_int sql_integer es s)) ∧
  grants_in_run py_int sql_integer uid es s = 0%nat.
Proof.
  revert s. induction es as [|e es IH]; intros s Hes Hc; [done|].
  apply Forall_cons in Hes as [He Hes].
  destruct (claimed_step uid today s e He Hc) as [Hc' Hg].
  destruct (IH _ Hes Hc') as [Hc'' Hg']. simpl. rewrite Hg, Hg'. done.
Qed.

(** X4. The daily reward over a whole run.  Whatever else happens in between
    (bets, settlements, a weekly rollover, renames, API calls, reactions of
    other users), a run whose reaction events all carry the date [today]
    grants a user the daily reward at most once; it grants none to a user
    whose row already holds that date, and the row still holds it at the
    end. *)
Theorem reward_once_in_run uid today es s :
  Forall (λ e, ∀ t, reaction_date e = Some t → t = today) es →
  (grants_in_run py_int sql_integer uid es s ≤ 1)%nat ∧
  (claimed uid today (ledger s) →
   grants_in_run py_int sql_integer uid es s = 0%nat ∧
   claimed uid today (ledger (run py_int sql_integer es s))).
Proof.
  intros Hes. split.
  - revert s. induction es as [|e es IH]; intros s; [simpl; lia|].
    apply Forall_cons in Hes as [He Hes]. simpl.
    pose proof (grants_to_le uid e s) as Hle.
    destruct (decide (grants_to uid e s = 0%nat)) as [->|Hg]; [by apply IH|].
    destruct (reaction_date e) as [t|] eqn:Hd; [|by destruct e].
    rewrite (He t eq_refl) in Hd.
    pose proof (grant_claims uid today s e Hd Hg) as Hc.
    destruct (claimed_run uid today es _ Hes Hc) as [_ ->]. lia.
  - intros Hc. by destruct (claimed_run uid today es s Hes Hc).
Qed.

End Reward_runs.

(** X4 at a day on which Alice reacts three times, under two names, around
    a bet and a settlement. *)
Lemma reward_once_in_run_witness :
  let es := [EvStartup (Some 50000%float) 0;
             EvReaction (Some (mk_reaction ["heart"] 5 (Some alice))) "2026-01-05" true;
             EvBet alice ["up"; "100"] 10;
             EvReaction (Some (mk_reaction ["fire"] 5 (Some alice_renamed))) "2026-01-05" true;
             EvResolve (Some 50500%float) 300 (Some 50500%float) 300;
             EvReaction (Some (mk_reaction ["heart"] 5 (Some alice))) "2026-01-05" false] in
  Forall (λ e, ∀ t, reaction_date e = Some t → t = "2026-01-05") es ∧
  (grants_in_run read_decimal read_decimal 1 es initial_state ≤ 1)%nat.
Proof.
  intros es.
  assert (Forall (λ e, ∀ t, reaction_date e = Some t → t = "2026-01-05") es) as Hes.
  { repeat constructor; simpl; intros; congruence. }
  split; [exact Hes|].
  exact (proj1 (reward_once_in_run read_decimal read_decimal 1 "2026-01-05" es
                  initial_state Hes)).
Defined.

(** ** The leaderboard is the top ten *)

Lemma board_before_trans a b c : board_before a b → board_before b c → board_before a c.
Proof. unfold board_before. lia. Qed.

Lemma board_before_total a b : board_before a b ∨ board_before b a.
Proof. unfold board_before. lia. Qed.

Lemma StronglySorted_lookup_lt {A} (R : relation A) l i j a b :
  StronglySorted R l → l !! i = Some a → l !! j = Some b → (i < j)%nat → R a b.
Proof.
  intros Hl. revert i j. induction Hl as [|x l Hl IH Hx]; intros i j Hi Hj Hij;
    [done|].
  destruct j as [|j]; [lia|]. simpl in Hj. destruct i as [|i]; simpl in Hi.
  - injection Hi as ->. rewrite Forall_forall in Hx. apply Hx.
    by apply list_elem_of_lookup_2 with j.
  - apply (IH i j); auto with lia.
Qed.

Lemma board_ids_map week d :
  map board_id
    (map (λ '(uid, u), mk_board uid (username u) (coins u) (weekly_gain week d uid u))
       (map_to_list (users d))) = (map_to_list (users d)).*1.
Proof.
  rewrite map_map. apply map_ext. by intros [uid u].
Qed.

(** X5. The leaderboard of both programs lists the top ten: it has ten rows,
    or one per user when there are fewer; no user is listed twice; a row
    never comes after a row with a smaller weekly gain, or with the same
    gain and a smaller balance; and a user who is not listed is outranked
    (or tied) by every row that is. *)
Theorem leaderboard_top_ten week d :
  let rows := Bot.cmd_leaderboard week d in
  Server.leaderboard week d = (rows, week) ∧
  length rows = Nat.min 10 (size (users d)) ∧
  NoDup (map board_id rows) ∧
  (∀ i j a b, rows !! i = Some a → rows !! j = Some b → (i < j)%nat →
              board_before a b) ∧
  (∀ uid u, users d !! uid = Some u →
     let mine := mk_board uid (username u) (coins u) (weekly_gain week d uid u) in
     In mine rows ∨
     (length rows = 10%nat ∧ ∀ row, In row rows → board_before row mine)).
Proof.
  cbv zeta. unfold Bot.cmd_leaderboard, Server.leaderboard, leaderboard_query.
  set (all := map _ (map_to_list (users d))).
  set (sorted := merge_sort board_before all).
  assert (sorted ≡ₚ all) as Hperm by apply merge_sort_Permutation.
  assert (StronglySorted board_before sorted) as Hsorted.
  { apply (@StronglySorted_merge_sort _ board_before _
             board_before_trans board_before_total). }
  assert (length sorted = size (users d)) as Hlen.
  { rewrite Hperm. unfold all. by rewrite length_map, length_map_to_list. }
  assert (NoDup (map board_id sorted)) as Hnd.
  { rewrite Hperm. unfold all. rewrite board_ids_map. apply NoDup_fst_map_to_list. }
  split; [done|]. split; [rewrite length_take; lia|]. split; [|split].
  - rewrite <- (take_drop 10 sorted), map_app in Hnd.
    by apply NoDup_app in Hnd as [? _].
  - intros i j a b Hi Hj Hij.
    rewrite <- (take_drop 10 sorted) in Hsorted.
    apply StronglySorted_app_1_l in Hsorted.
    apply (StronglySorted_lookup_lt _ (take 10 sorted) i j a b); auto.
  - intros uid u Hu.
    set (mine := mk_board uid (username u) (coins u) (weekly_gain week d uid u)).
    assert (mine ∈ sorted) as Hin.
    { rewrite Hperm. unfold all. apply list_elem_of_In, in_map_iff.
      exists (uid, u). split; [done|]. by apply list_elem_of_In, elem_of_map_to_list. }
    rewrite <- (take_drop 10 sorted) in Hin, Hsorted.
    apply elem_of_app in Hin as [Hin|Hin]; [left; by apply list_elem_of_In|].
    right. split.
    + rewrite length_take. apply list_elem_of_lookup in Hin as (i & Hi).
      apply lookup_lt_Some in Hi. rewrite length_drop in Hi. lia.
    + intros row Hrow%list_elem_of_In.
      by apply (StronglySorted_app_1_elem_of _ _ _ _ _ Hsorted).
Qed.

(** ** The user route of the API *)

Lemma db_eq d d' :
  users d = users d' → markets d = markets d' → bets d = bets d' →
  weekly_coins_snapshot d = weekly_coins_snapshot d' → d = d'.
Proof. destruct d, d'. simpl. by intros -> -> -> ->. Qed.

Lemma ensure_user_twice user d :
  Bot.ensure_user user (Bot.ensure_user user d) = Bot.ensure_user user d.
Proof.
  apply db_eq; try done.
  apply map_eq. intros k. rewrite !ensure_user_lookup.
  case_decide; [|done]. by destruct (users d !! k).
Qed.


(** ** The weekly gain between two rollovers *)

Lemma bet_effect_snapshot uid dir amt d0 d1 o d' :
  bet_effect uid dir amt d0 d1 o d' →
  weekly_coins_snapshot d1 = weekly_coins_snapshot d0 →
  weekly_coins_snapshot d' = weekly_coins_snapshot d0.
Proof. by intros [| |]. Qed.

Lemma resolve_market_snapshot close_p now next_p now' d :
  weekly_coins_snapshot (Engine.resolve_market close_p now next_p now' d) =
  weekly_coins_snapshot d.
Proof.
  destruct close_p as [c|]; [|done].
  destruct (Engine.get_open_market d) as [market|] eqn:Hm.
  - by rewrite (resolve_market_open _ _ _ _ _ _ Hm), open_new_market_snapshot.
  - unfold Engine.resolve_market. by rewrite Hm, open_new_market_snapshot.
Qed.

Section Between_rollovers.

Variable py_int : string → option Z.
Variable sql_integer : string → option Z.

(** Only the weekly job writes the snapshot table. *)
Lemma snapshot_kept_step s e :
  is_snapshot e = false →
  weekly_coins_snapshot (ledger (step py_int sql_integer s e)) = weekly_coins_snapshot (ledger s).
Proof.
  intros He. destruct e; try discriminate He;
    [cbn [step]; fields; unfold Bot.on_reaction; try done..| |].
  - unfold Engine.startup. destruct (Engine.get_open_market _); [done|].
    apply open_new_market_snapshot.
  - apply resolve_market_snapshot.
  - destruct (cmd_bet_effect py_int user args now s)
      as [_ [(r & _ & -> & _)|(dir & amt & _ & _ & _ & ->)]]; [done|].
    by eapply bet_effect_snapshot; [apply bet_transaction_effect|].
  - apply on_reaction_markets.
  - apply upsert_user_markets.
  - destruct (place_bet_effect py_int sql_integer body (ledger s))
      as [(? & ? & ? & _ & _ & _ & Hb)|(o & -> & _)]; [|done].
    by eapply bet_effect_snapshot; [apply Hb|].
  - by rewrite (proj1 (step_api_begin py_int sql_integer s request body)).
  - destruct (proj1 (step_api_next py_int sql_integer s request)) as [->|Hlate]; [done|].
    by apply late_write_frame in Hlate as (_ & -> & _).
Qed.

(** No event deletes a user's row. *)
Lemma user_kept_step s e uid u :
  users (ledger s) !! uid = Some u →
  ∃ u', users (ledger (step py_int sql_integer s e)) !! uid = Some u'.
Proof.
  intros Hu. destruct (reaction_date e) as [t|] eqn:He.
  - destruct e; try discriminate He. cbn [step]. fields.
    destruct (on_reaction_claim Config.DAILY_REWARD_MESSAGE_ID reaction today send_ok
                (ledger s) uid) as [Hkeep _].
    destruct (Hkeep _ Hu) as (u' & Hu' & _). by exists u'.
  - destruct (claim_dates_kept_step py_int sql_integer s e He _ _ Hu) as (u' & Hu' & _).
    by exists u'.
Qed.

Lemma between_rollovers_run es s :
  Forall (λ e, is_snapshot e = false) es →
  weekly_coins_snapshot (ledger (run py_int sql_integer es s)) =
    weekly_coins_snapshot (ledger s) ∧
  ∀ uid u, users (ledger s) !! uid = Some u →
           ∃ u', users (ledger (run py_int sql_integer es s)) !! uid = Some u'.
Proof.
  revert s. induction es as [|e es IH]; intros s Hes; [by eauto|].
  apply Forall_cons in Hes as [He Hes].
  destruct (IH (step py_int sql_integer s e) Hes) as [IH1 IH2].
  simpl. split.
  - by rewrite IH1, snapshot_kept_step.
  - intros uid u Hu. destruct (user_kept_step s e uid u Hu) as (u1 & Hu1). eauto.
Qed.

(** X7. Between two rollovers the weekly gain is what the user has won or
    lost since.  After the weekly job has run for [week], and through any
    run in which it does not run again, a user who had a row at the rollover
    still has one, and the gain the leaderboard and the user route compute
    for [week] is the balance now minus the balance at the rollover; for a
    user whose row was created afterwards it is the whole balance. *)
Theorem weekly_gain_since_rollover week es s :
  Forall (λ e, is_snapshot e = false) es →
  let s' := run py_int sql_integer es (step py_int sql_integer s (EvSnapshot week)) in
  (∀ uid u0, users (ledger s) !! uid = Some u0 →
     ∃ u', users (ledger s') !! uid = Some u' ∧
           weekly_gain week (ledger s') uid u' = coins u' - coins u0) ∧
  (∀ uid u', users (ledger s) !! uid = None →
     weekly_gain week (ledger s') uid u' = coins u').
Proof.
  intros Hes s'.
  destruct (between_rollovers_run es (step py_int sql_integer s (EvSnapshot week)) Hes)
    as [Hsnap Hkept].
  fold s' in Hsnap, Hkept. cbn [step] in Hsnap, Hkept. fields.
  cbn [on_ledger ledger] in Hsnap.
  split.
  - intros uid u0 Hu0. destruct (Hkept uid u0 Hu0) as (u' & Hu').
    exists u'. split; [done|]. unfold weekly_gain, snapshot_balance.
    rewrite Hsnap, refresh_snapshot_lookup, Hu0. simpl.
    by rewrite String.eqb_refl.
  - intros uid u' Hnone. unfold weekly_gain, snapshot_balance.
    rewrite Hsnap, refresh_snapshot_lookup, Hnone. simpl. lia.
Qed.

End Between_rollovers.

(** X7 at the worked session followed by a rollover, a claim of Alice on
    the next day and a bet of hers: she holds 200 at the rollover and 280
    afterwards. *)
Lemma weekly_gain_since_rollover_witness :
  let es := [EvReaction (Some (mk_reaction ["heart"] 5 (Some alice))) "2026-01-06" true;
             EvBet alice ["down"; "20"] 400] in
  let s := run read_decimal read_decimal session initial_state in
  let s' := run read_decimal read_decimal es
              (step read_decimal read_decimal s (EvSnapshot "2026-01-05")) in
  Forall (λ e, is_snapshot e = false) es ∧
  ∃ u', users (ledger s') !! 1 = Some u' ∧
        weekly_gain "2026-01-05" (ledger s') 1 u' = coins u' - 200.
Proof.
  intros es s s'.
  assert (Forall (λ e, is_snapshot e = false) es) as Hes by (by repeat constructor).
  split; [exact Hes|].
  assert (users (ledger s) !! 1 = Some (mk_user "alice" 200 (Some "2026-01-05")))
    as Hu by (vm_compute; reflexivity).
  exact (proj1 (weekly_gain_since_rollover read_decimal read_decimal "2026-01-05" es s Hes) 1 _ Hu).
Defined.

(** ** The API's recent bets and their [won] flag *)

(** [<] on binary64 is asymmetric. *)
Lemma float_ltb_asym x y : PrimFloat.ltb x y = true → PrimFloat.ltb y x = false.
Proof.
  rewrite !FloatAxioms.ltb_spec. unfold SpecFloat.SFltb.
  destruct (FloatOps.Prim2SF x) as [s1|s1| |s1 m1 e1],
           (FloatOps.Prim2SF y) as [s2|s2| |s2 m2 e2];
    simpl; try done; try (by destruct s1); try (by destruct s2);
    try (by destruct s1, s2).
  destruct s1, s2; try done.
  - rewrite (Z.compare_antisym e1 e2). destruct (e1 ?= e2)%Z; simpl; try done.
    rewrite (eq_sym (Pos.compare_cont_antisym m1 m2 Eq) : Pos.compare_cont Eq m2 m1 = _).
    by destruct (Pos.compare_cont Eq m1 m2).
  - rewrite (Z.compare_antisym e1 e2). destruct (e1 ?= e2)%Z; simpl; try done.
    rewrite (eq_sym (Pos.compare_cont_antisym m1 m2 Eq) : Pos.compare_cont Eq m2 m1 = _).
    by destruct (Pos.compare_cont Eq m1 m2).
Qed.

Lemma won_flag_winner b m :
  Queries.won_flag b m = true →
  resolved b = true ∧
  ∃ c, close_price m = Some c ∧
       bet_direction b = Engine.winning_direction c (open_price m).
Proof.
  unfold Queries.won_flag, Engine.winning_direction.
  intros [Hr Hw]%andb_prop. split; [done|].
  destruct (close_price m) as [c|]; [|done]. exists c. split; [done|].
  apply orb_prop in Hw as [[Hlt Hd]%andb_prop|[Hlt Hd]%andb_prop].
  - rewrite Hlt. by destruct (bet_direction b).
  - rewrite (float_ltb_asym _ _ Hlt). by destruct (bet_direction b).
Qed.

Lemma newer_first_trans a b c :
  Queries.newer_first a b → Queries.newer_first b c → Queries.newer_first a c.
Proof. unfold Queries.newer_first. lia. Qed.

Lemma newer_first_total a b : Queries.newer_first a b ∨ Queries.newer_first b a.
Proof. unfold Queries.newer_first. lia. Qed.

Section Recent.

Variable sql_integer : string → option Z.

(** X8. [GET /api/bets/recent] answers with at most ten rows, newest bet
    first.  Each row is a bet of the asking user joined with the market it
    was placed on, and carries that market's open and close price.  A row
    flagged [won] is a resolved bet on a market with a close price, on the
    direction the settlement paid; what the settlement credited it is twice
    the stake, except on a tie (prices less than 0.01 apart), where the row
    is flagged although only the stake was returned. *)
Theorem recent_bets_won user_id d rows :
  Queries.recent_bets sql_integer user_id d = Some rows →
  (length rows ≤ 10)%nat ∧
  (∀ i j a b, rows !! i = Some a → rows !! j = Some b → (i < j)%nat →
              bet_id (recent_bet b) ≤ bet_id (recent_bet a)) ∧
  (∀ row, In row rows →
     let b := recent_bet row in
     In b (bets d) ∧
     (∃ txt, user_id = Some txt ∧ sql_integer txt = Some (bet_user b)) ∧
     (∃ m, In m (markets d) ∧ market_id_of m = bet_market b ∧
           recent_open_price row = open_price m ∧
           recent_close_price row = close_price m) ∧
     (won row = true →
      resolved b = true ∧
      ∃ c, recent_close_price row = Some c ∧
           bet_direction b = Engine.winning_direction c (recent_open_price row) ∧
           payout c (recent_open_price row) b =
           if Engine.is_tie c (recent_open_price row) then amount b
           else amount b * 2)).
Proof.
  unfold Queries.recent_bets. destruct user_id as [txt|]; [|done].
  destruct (String.eqb txt ""); [done|]. intros [= <-].
  set (all := flat_map _ _). set (sorted := merge_sort _ all).
  assert (sorted ≡ₚ all) as Hperm by apply merge_sort_Permutation.
  assert (StronglySorted Queries.newer_first sorted) as Hsorted.
  { apply (@StronglySorted_merge_sort _ Queries.newer_first Queries.newer_first_dec
             newer_first_trans newer_first_total). }
  split; [rewrite length_take; lia|]. split.
  - intros i j a b Hi Hj Hij.
    rewrite <- (take_drop 10 sorted) in Hsorted.
    apply StronglySorted_app_1_l in Hsorted.
    apply (StronglySorted_lookup_lt _ _ i j a b Hsorted); auto.
  - intros row Hin%list_elem_of_In. apply elem_of_take in Hin as (i & Hi & _).
    apply list_elem_of_lookup_2 in Hi. rewrite Hperm in Hi.
    apply list_elem_of_In in Hi. unfold all in Hi.
    apply in_flat_map in Hi as (b & Hb & Hrow).
    apply filter_In in Hb as [Hb Hsame].
    apply in_map_iff in Hrow as (m & <- & Hm).
    apply filter_In in Hm as [Hm Hid]. cbn [recent_bet recent_open_price
      recent_close_price won].
    split; [done|]. split.
    { exists txt. split; [done|]. unfold Queries.same_user in Hsame.
      destruct (sql_integer txt) as [z|]; [|done]. f_equal. lia. }
    split; [exists m; repeat split; auto; lia|].
    intros (Hr & c & Hc & Hdir)%won_flag_winner. split; [done|].
    exists c. split; [done|]. split; [done|].
    unfold payout. destruct (Engine.is_tie _ _); [done|].
    rewrite Hdir. by destruct (Engine.winning_direction _ _).
Qed.

End Recent.

(** X8 at the worked session: Alice's UP bet on the market that closed 500
    higher is flagged. *)
Lemma recent_bets_won_witness :
  let d := ledger (run read_decimal read_decimal session initial_state) in
  let rows := [mk_recent (mk_bet 1 1 1 UP 100 true) 50000%float (Some 50500%float)
                 true] in
  Queries.recent_bets read_decimal (Some "1") d = Some rows ∧
  (length rows ≤ 10)%nat.
Proof.
  intros d rows.
  assert (Queries.recent_bets read_decimal (Some "1") d = Some rows) as H
    by (vm_compute; reflexivity).
  split; [exact H|].
  exact (proj1 (recent_bets_won read_decimal (Some "1") d rows H)).
Defined.

(** ** The market a tick opens *)

Lemma latest_app_new ms fresh :
  (∀ m, In m ms → market_id_of m < market_id_of fresh) →
  Engine.latest (ms ++ [fresh]) = Some fresh.
Proof.
  induction ms as [|m ms IH]; intros Hlt; [done|]. simpl.
  rewrite IH by (intros; apply Hlt; by right).
  pose proof (Hlt m (or_introl eq_refl)).
  by destruct (Z.ltb_spec (market_id_of m) (market_id_of fresh)); [|lia].
Qed.

(** The market [open_new_market] inserts when it has a price. *)
Lemma get_open_market_new price now d :
  Engine.get_open_market (Engine.open_new_market (Some price) now d) =
  Some (market_opened price now d).
Proof.
  unfold Engine.get_open_market, Engine.open_new_market, market_opened.
  cbv zeta. fields. rewrite List.filter_app. simpl. apply latest_app_new.
  intros m [Hm _]%filter_In. simpl. apply next_id_above. by apply in_map.
Qed.

Lemma open_new_market_as_opened price now d d0 :
  map market_id_of (markets d) = map market_id_of (markets d0) →
  market_opened price now d = market_opened price now d0.
Proof. unfold market_opened. by intros ->. Qed.

Lemma resolve_market_current close_p now p now' d :
  Engine.get_open_market (Engine.resolve_market (Some close_p) now (Some p) now' d) =
  Some (market_opened p now' d).
Proof.
  destruct (Engine.get_open_market d) as [market|] eqn:Hm.
  - rewrite (resolve_market_open _ _ _ _ _ _ Hm), get_open_market_new.
    f_equal. apply open_new_market_as_opened. simpl. apply close_market_ids.
  - unfold Engine.resolve_market. rewrite Hm. apply get_open_market_new.
Qed.

(** A settlement adds no bet: each bet is on a market that was there. *)
Lemma resolve_market_bets_old close_p now next_p now' d b :
  bets_ok d → In b (bets (Engine.resolve_market close_p now next_p now' d)) →
  bet_market b < next_id (map market_id_of (markets d)).
Proof.
  intros [Hin _] Hb.
  assert (∃ b0, In b0 (bets d) ∧ bet_market b0 = bet_market b) as (b0 & Hb0 & <-).
  { destruct close_p as [c|]; [|by eauto].
    destruct (Engine.get_open_market d) as [market|] eqn:Hm.
    - rewrite (resolve_market_open _ _ _ _ _ _ Hm), open_new_market_bets in Hb.
      simpl in Hb. apply In_mark_resolved in Hb as (b0 & Hb0 & Hid & _). eauto.
    - unfold Engine.resolve_market in Hb. rewrite Hm, open_new_market_bets in Hb.
      eauto. }
  by apply next_id_above, Hin.
Qed.

(** X9. The market a tick opens.  A settlement that gets its close price
    and the next open price leaves, as the market [GET /api/market] and the
    handlers read, a new market: opened at the next price and at the time
    read for it, closing [MARKET_INTERVAL_MINS] later, without a close
    price, under an id above every id in use; on a ledger that keeps [bets_ok]
    no bet is on it yet.  So does a start of the bot that finds no open
    market, whereas one that finds a market leaves the ledger alone. *)
Theorem current_market_after_tick close_p now p now' d :
  let d' := Engine.resolve_market (Some close_p) now (Some p) now' d in
  let fresh := market_opened p now' d in
  Queries.current_market d' = Some fresh ∧
  fresh = mk_market (next_id (map market_id_of (markets d))) p None now'
            (Some (now' + inject_Z (Config.MARKET_INTERVAL_MINS * 60))%Q) OPEN ∧
  (∀ m, In m (markets d) → market_id_of m < market_id_of fresh) ∧
  (bets_ok d → ∀ b, In b (bets d') → bet_market b ≠ market_id_of fresh) ∧
  (Engine.get_open_market d = None →
   Queries.current_market (Engine.startup (Some p) now' d) = Some fresh) ∧
  (∀ market, Engine.get_open_market d = Some market →
             Engine.startup (Some p) now' d = d).
Proof.
  cbv zeta. unfold Queries.current_market.
  split; [apply resolve_market_current|].
  split; [done|]. split; [|split; [|split]].
  - intros m Hm. simpl. apply next_id_above. by apply in_map.
  - intros Hok b Hb. pose proof (resolve_market_bets_old _ _ _ _ _ _ Hok Hb).
    simpl. lia.
  - intros Hm. unfold Engine.startup. rewrite Hm. apply get_open_market_new.
  - intros market Hm. unfold Engine.startup. by rewrite Hm.
Qed.

(** X9 at the worked session: the second market. *)
Lemma current_market_after_tick_witness :
  Queries.current_market (ledger (run read_decimal read_decimal session initial_state)) =
  Some (mk_market 2 50500%float None 300 (Some 600%Q) OPEN).
Proof.
  exact (proj1 (current_market_after_tick 50500%float 300 50500%float 300
                  (ledger (run read_decimal read_decimal (removelast session) initial_state)))).
Defined.

(** ** The active bet the API reports *)



Section Active.

Variable py_int : string → option Z.
Variable sql_integer : string → option Z.





End Active.


(** ** Whose commands the limiter counts *)

Lemma is_rate_limited_answer uid now rb rb' :
  rb' !! uid = rb !! uid →
  (RateLimiter.is_rate_limited uid now rb').1 = (RateLimiter.is_rate_limited uid now rb).1.
Proof.
  intros E. rewrite !is_rate_limited_spec. cbv zeta. unfold bucket_of. rewrite E.
  by destruct (_ <=? _)%nat.
Qed.

Lemma is_rate_limited_other uid now rb k :
  k ≠ uid → (RateLimiter.is_rate_limited uid now rb).2 !! k = rb !! k.
Proof.
  intros Hk. rewrite is_rate_limited_spec. cbv zeta.
  destruct (_ <=? _)%nat; simpl; by rewrite lookup_insert_ne.
Qed.

Section Limiter_runs.

Variable py_int : string → option Z.
Variable sql_integer : string → option Z.

Lemma bucket_kept_step uid s e :
  is_startup e = false →
  (∀ user args now, e = EvBet user args now → tg_id user ≠ uid) →
  rate_buckets (step py_int sql_integer s e) !! uid = rate_buckets s !! uid.
Proof.
  intros Hstart He. destruct e; try done.
  - cbn [step]. rewrite (proj1 (cmd_bet_effect py_int user args now s)).
    apply is_rate_limited_other. intros E. exact (He user args now eq_refl (eq_sym E)).
  - by rewrite (proj2 (step_api_begin py_int sql_integer s request body)).
  - by rewrite (proj2 (step_api_next py_int sql_integer s request)).
Qed.

(** X11. Whose commands the limiter counts.  Through any run in which the
    bot is not started anew and the user sends no [/bet] command, the
    user's bucket stays as it is, so the limiter's next answer to the user
    is what it would have been before the run: bets placed through the API,
    in one piece or with other operations in between, the commands of other
    users, the scheduler's jobs and the reactions use up nothing of the
    user's allowance.  A [/bet] command of the user, on the other hand, is
    recorded whenever the limiter admits it, also when the command is then
    rejected for its arguments.  A start of the bot forgets every bucket:
    the limiter admits the next command of any user. *)
Theorem limiter_counts_own_commands uid es s :
  Forall (λ e, is_startup e = false ∧
               ∀ user args now, e = EvBet user args now → tg_id user ≠ uid) es →
  let s' := run py_int sql_integer es s in
  rate_buckets s' !! uid = rate_buckets s !! uid ∧
  (∀ now, (RateLimiter.is_rate_limited uid now (rate_buckets s')).1 =
          (RateLimiter.is_rate_limited uid now (rate_buckets s)).1) ∧
  (∀ user args now,
     tg_id user = uid →
     (Bot.cmd_bet py_int user args now s').1 ≠ Rejected RateLimited →
     In now (bucket_of uid (rate_buckets (Bot.cmd_bet py_int user args now s').2))) ∧
  (∀ price now,
     let started := step py_int sql_integer s' (EvStartup price now) in
     rate_buckets started = ∅ ∧
     ∀ k now', (RateLimiter.is_rate_limited k now' (rate_buckets started)).1 = false).
Proof.
  intros Hes s'.
  assert (rate_buckets s' !! uid = rate_buckets s !! uid) as Hkept.
  { unfold s'. clear s'. revert s. induction es as [|e es IH]; intros s; [done|].
    apply Forall_cons in Hes as [[Hstart He] Hes]. simpl.
    by rewrite (IH Hes), bucket_kept_step. }
  split; [done|]. split; [|split].
  - intros now. by apply is_rate_limited_answer.
  - intros user args now <- Hres.
    destruct (cmd_bet_effect py_int user args now s') as [-> Hcases].
    rewrite bucket_after. apply in_or_app. right.
    destruct (RateLimiter.is_rate_limited _ _ _).1 eqn:Hlim; [|by left].
    destruct Hcases as [(r & Hr & _ & Hl & _)|(dir & amt & Hl & _)]; [|done].
    rewrite (Hl eq_refl) in Hr. done.
  - intros price now started. split; [done|]. intros k now'.
    rewrite is_rate_limited_spec. cbv zeta. unfold started. cbn [step rate_buckets].
    unfold bucket_of. by rewrite lookup_empty.
Qed.

End Limiter_runs.

(** X11 at three bets of Alice through the API at a moment when the bot has
    seen three commands of hers: her bucket is as it was. *)
Lemma limiter_counts_own_commands_witness :
  let es := [EvApiBet (mk_bet_request (JInt 1) (JStr "up") (JInt 10));
             EvBet bob ["up"; "5"] 3;
             EvResolve (Some 50500%float) 300 (Some 50500%float) 300] in
  Forall (λ e, is_startup e = false ∧
               ∀ user args now, e = EvBet user args now → tg_id user ≠ 1) es ∧
  rate_buckets (run read_decimal read_decimal es busy_state) !! 1 = rate_buckets busy_state !! 1.
Proof.
  intros es.
  assert (Forall (λ e, is_startup e = false ∧
                       ∀ user args now, e = EvBet user args now → tg_id user ≠ 1) es)
    as Hes.
  { repeat constructor; intros user args now [= <- _ _]; discriminate. }
  split; [exact Hes|].
  exact (proj1 (limiter_counts_own_commands read_decimal read_decimal 1 es busy_state Hes)).
Defined.

(** ** A bet and its settlement *)



Section Stake.

Variable py_int : string → option Z.
Variable sql_integer : string → option Z.


End Stake.


(** ** Asking for the balance *)

(** X13. [/balance] and [/start].  [/balance] always has a balance to
    report: the stored one, or 0 for a user it has never seen, whose row it
    creates ([/start] writes the same).  Neither command changes a balance
    or a claim date, touches another user's row, a market, a bet or the
    snapshot; the user's row ends with the name Telegram shows now (the
    username, or the first name when there is none).  Asking twice is asking
    once. *)
Theorem cmd_balance_reports user d :
  let res := Bot.cmd_balance user d in
  res.1 = Some (default 0 (balance d (tg_id user))) ∧
  res.2 = Bot.cmd_start user d ∧
  (∃ u, users res.2 !! tg_id user = Some u ∧
        username u = (if tg_username user is Some n
                      then if String.eqb n "" then first_name user else n
                      else first_name user) ∧
        coins u = default 0 (balance d (tg_id user)) ∧
        last_daily u = users d !! tg_id user ≫= last_daily) ∧
  (∀ k, k ≠ tg_id user → users res.2 !! k = users d !! k) ∧
  markets res.2 = markets d ∧ bets res.2 = bets d ∧
  weekly_coins_snapshot res.2 = weekly_coins_snapshot d ∧
  Bot.cmd_balance user res.2 = res.
Proof.
  cbv zeta. unfold Bot.cmd_balance, Bot.cmd_start. cbn [fst snd].
  rewrite ensure_user_twice.
  assert (balance (Bot.ensure_user user d) (tg_id user) =
          Some (default 0 (balance d (tg_id user)))) as Hb.
  { by rewrite ensure_user_balance, decide_True. }
  split; [done|]. split; [done|]. split.
  - rewrite ensure_user_lookup, decide_True by done. eexists. split; [done|].
    unfold balance, Bot.display_name.
    by destruct (users d !! tg_id user), (tg_username user).
  - split; [|by rewrite Hb].
    intros k Hk. rewrite ensure_user_lookup. by rewrite decide_False.
Qed.

(** ** The week a day belongs to *)

(** X14. [_current_week_start], of both programs.  The week start computed
    on a day is a Monday, that day or one of the six before; it is the same
    on every day from that Monday to the Sunday after, so the key the
    leaderboard reads all week is the tag the Monday job wrote; and it moves
    by seven days from the Sunday to the Monday that follows. *)
Theorem week_start_is_monday today :
  let monday := Calendar.monday_of today in
  Calendar.weekday monday = 0 ∧
  monday ≤ today ≤ monday + 6 ∧
  (∀ day, monday ≤ day ≤ monday + 6 → Calendar.monday_of day = monday) ∧
  (∀ day, Calendar.monday_of day = monday → monday ≤ day ≤ monday + 6) ∧
  Calendar.monday_of (monday + 7) = monday + 7 ∧
  (∀ isoformat day, monday ≤ day ≤ monday + 6 →
     Calendar.current_week_start isoformat day =
     Calendar.current_week_start isoformat today).
Proof.
  cbv zeta. unfold Calendar.current_week_start, Calendar.monday_of, Calendar.weekday.
  split; [|split; [|split; [|split; [|split]]]].
  - Z.div_mod_to_equations. lia.
  - Z.div_mod_to_equations. lia.
  - intros day Hday. Z.div_mod_to_equations. lia.
  - intros day Hday. Z.div_mod_to_equations. lia.
  - Z.div_mod_to_equations. lia.
  - intros isoformat day Hday. apply f_equal. Z.div_mod_to_equations. lia.
Qed.

(** ** What a stored bet looks like *)

Lemma stakes_ok_kept d d' :
  (∀ b, In b (bets d') → ∃ b0, In b0 (bets d) ∧ amount b = amount b0 ∧
                               bet_user b = bet_user b0) →
  (∀ uid u, users d !! uid = Some u → ∃ u', users d' !! uid = Some u') →
  stakes_ok d → stakes_ok d'.
Proof.
  intros Hb Hu Hok b (b0 & Hb0 & -> & ->)%Hb.
  destruct (Hok b0 Hb0) as [Hamt [u Hrow]]. split; [done|].
  destruct (Hu _ _ Hrow) as (u' & ->). by eexists.
Qed.

Lemma stakes_ok_bet_effect uid dir amt d0 d1 o d' :
  bet_effect uid dir amt d0 d1 o d' →
  1 ≤ amt ≤ 10000 → stakes_ok d0 → stakes_ok d1 → stakes_ok d'.
Proof.
  intros [| |market row Hm Hrow Hle Hdup Hfresh] Hamt Hd0 Hd1; try done.
  intros b [Hb|[<-|[]]]%in_app_or; cbn [amount bet_user users].
  - destruct (Hd1 b Hb) as [Hb1 [u Hu]]. split; [done|].
    rewrite lookup_add_coins, Hu. case_decide; by eexists.
  - split; [done|]. rewrite lookup_add_coins, decide_True, Hrow by done.
    by eexists.
Qed.

Lemma stakes_ok_ensure_user user d : stakes_ok d → stakes_ok (Bot.ensure_user user d).
Proof.
  apply stakes_ok_kept; [by eauto|]. intros uid u Hu.
  destruct (claim_dates_kept_ensure_user user d uid u Hu) as (u' & Hu' & _). eauto.
Qed.

Section Stored_bets.

Variable py_int : string → option Z.
Variable sql_integer : string → option Z.

Lemma stakes_ok_step s e :
  stakes_ok (ledger s) → stakes_ok (ledger (step py_int sql_integer s e)).
Proof.
  intros Hok.
  destruct e;
    [cbn [step]; fields; unfold Bot.cmd_start, Bot.cmd_balance; cbn [snd]..| |].
  - revert Hok.
    apply stakes_ok_kept;
      [|by apply (user_kept_step py_int sql_integer s (EvStartup price now))].
    unfold Engine.startup. destruct (Engine.get_open_market _); [by eauto|].
    rewrite open_new_market_bets. by eauto.
  - revert Hok.
    apply stakes_ok_kept;
      [|by apply (user_kept_step py_int sql_integer s (EvResolve close_p now next_p now'))].
    intros b Hb. destruct close_p as [c|]; [|by eauto].
    destruct (Engine.get_open_market (ledger s)) as [market|] eqn:Hm.
    + rewrite (resolve_market_open _ _ _ _ _ _ Hm), open_new_market_bets in Hb.
      simpl in Hb. apply In_mark_resolved in Hb as (b0 & Hb0 & _ & Hu & Ha & _).
      eauto.
    + unfold Engine.resolve_market in Hb. rewrite Hm, open_new_market_bets in Hb.
      eauto.
  - revert Hok. apply stakes_ok_kept; by eauto.
  - by apply stakes_ok_ensure_user.
  - by apply stakes_ok_ensure_user.
  - destruct (cmd_bet_effect py_int user args now s)
      as [_ [(r & _ & -> & _)|(dir & amt & _ & Hamt & _ & ->)]]; [done|].
    eapply stakes_ok_bet_effect; [apply bet_transaction_effect|done..|].
    by apply stakes_ok_ensure_user.
  - revert Hok.
    apply stakes_ok_kept;
      [|by apply (user_kept_step py_int sql_integer s (EvReaction reaction today send_ok))].
    intros b. unfold Bot.on_reaction.
    rewrite (proj1 (proj2 (on_reaction_markets _ _ _ _ _))). eauto.
  - destruct (upsert_user_effect sql_integer tg name week (ledger s)) as [->|(uid & _ & _ & ->)];
      [done|].
    rewrite upsert_as_ensure_user. by apply stakes_ok_ensure_user.
  - destruct (place_bet_effect py_int sql_integer body (ledger s))
      as [(? & ? & ? & Hamt & _ & _ & Hb)|(o & -> & _)]; [|done].
    by eapply stakes_ok_bet_effect; [apply Hb|..].
  - by rewrite (proj1 (step_api_begin py_int sql_integer s request body)).
  - destruct (proj1 (step_api_next py_int sql_integer s request)) as [->|Hlate]; [done|].
    apply late_write_frame in Hlate
      as (_ & _ & (b & Hb & _ & Hamt & [u Hu] & _) & Hrows).
    intros b0. rewrite Hb. intros [Hb0|[<-|[]]]%in_app_or.
    + destruct (Hok b0 Hb0) as [Hamt0 [u0 Hu0]]. split; [done|].
      destruct (Hrows _ _ Hu0) as (u' & -> & _). by eexists.
    + split; [done|]. destruct (Hrows _ _ Hu) as (u' & -> & _). by eexists.
Qed.

(** X15. What a stored bet looks like.  At every state the two programs
    reach from a fresh database, every bet in the table has a stake between
    [MIN_BET_AMOUNT] and [MAX_BET_AMOUNT] (the bounds the API spells 1 and
    10000) and belongs to a user who has a row; and a run from any ledger
    of which this is true keeps it true. *)
Theorem stored_bets_within_bounds es :
  (∀ s, stakes_ok (ledger s) → stakes_ok (ledger (run py_int sql_integer es s))) ∧
  ∀ b, In b (bets (ledger (run py_int sql_integer es initial_state))) →
       1 ≤ amount b ≤ 10000 ∧
       is_Some (users (ledger (run py_int sql_integer es initial_state)) !! bet_user b).
Proof.
  assert (∀ s, stakes_ok (ledger s) → stakes_ok (ledger (run py_int sql_integer es s))) as Hrun.
  { induction es as [|e es IH]; intros s Hok; [done|].
    simpl. by apply IH, stakes_ok_step. }
  split; [done|]. apply (Hrun initial_state). by intros b [].
Qed.

End Stored_bets.
